(** * MXNet::Symbol binding adapter (ext/mxnet/symbol.c)

    A shallow embedding of the marshalling code of [symbol.c]: the helper
    [get_ndarray_inputs] and the method [symbol_bind], together with the part
    of the Ruby C API and of the native engine ABI they call.

    - Ruby values ([VALUE]) are an inductive type, one constructor per kind
      of object the code distinguishes with [RB_TYPE_P], [NIL_P] and
      [rb_obj_is_kind_of].
    - [rb_raise] is the [Raise] branch of an error type; the exception keeps
      its class, the format string and the format arguments.
    - Calls into the native engine are logged in a trace, so that "before
      the native call" is a statement about that trace. *)

From Stdlib Require Import List ZArith String Ascii Bool Lia Permutation.
Import ListNotations.
Local Open Scope Z_scope.

Set Implicit Arguments.
Set Warnings "-register-all".

(** ** Ruby values *)

(** Native handles ([void *] that is not NULL); a nullable pointer is an
    [option handle], [None] being [NULL]. *)
Definition handle := Z.

Inductive VALUE : Type :=
| Qundef
| Qnil
| Qtrue
| Qfalse
| Integer (z : Z)                          (* Fixnum or Bignum *)
| Sym (name : string)                      (* T_SYMBOL *)
| Str (s : string)                         (* T_STRING *)
| Ary (elts : list VALUE)                  (* T_ARRAY *)
| Hsh (entries : list (VALUE * VALUE))     (* T_HASH, in insertion order *)
| NDArray (h : handle)                     (* kind_of mxnet_cNDArray *)
| Context (dev_type dev_id : Z)            (* kind_of mxnet_cContext *)
| MXSymbol (h : handle)                    (* kind_of mxnet_cSymbol *)
| Executor (h : handle)
           (symbol ctx grad_req group2ctx : VALUE)
           (arg_arrays grad_arrays aux_arrays : VALUE)
| Object (oid : Z).                        (* any other object *)

(** Key comparison of a Hash ([eql?]): symbols by identity, strings and
    integers by content, arrays element by element; the other objects are
    identified by their fields. *)
Fixpoint VALUE_eqb (a b : VALUE) {struct a} : bool :=
  match a, b with
  | Qundef, Qundef | Qnil, Qnil | Qtrue, Qtrue | Qfalse, Qfalse => true
  | Integer x, Integer y => Z.eqb x y
  | Sym x, Sym y => String.eqb x y
  | Str x, Str y => String.eqb x y
  | Ary xs, Ary ys =>
      (fix go (l1 l2 : list VALUE) {struct l1} : bool :=
         match l1, l2 with
         | [], [] => true
         | x :: l1', y :: l2' => VALUE_eqb x y && go l1' l2'
         | _, _ => false
         end) xs ys
  | Hsh xs, Hsh ys =>
      (fix go (l1 l2 : list (VALUE * VALUE)) {struct l1} : bool :=
         match l1, l2 with
         | [], [] => true
         | (k1, v1) :: l1', (k2, v2) :: l2' =>
             VALUE_eqb k1 k2 && VALUE_eqb v1 v2 && go l1' l2'
         | _, _ => false
         end) xs ys
  | NDArray x, NDArray y => Z.eqb x y
  | Context t1 i1, Context t2 i2 => Z.eqb t1 t2 && Z.eqb i1 i2
  | MXSymbol x, MXSymbol y => Z.eqb x y
  | Executor h1 s1 c1 g1 m1 a1 r1 x1, Executor h2 s2 c2 g2 m2 a2 r2 x2 =>
      Z.eqb h1 h2 && VALUE_eqb s1 s2 && VALUE_eqb c1 c2 && VALUE_eqb g1 g2
      && VALUE_eqb m1 m2 && VALUE_eqb a1 a2 && VALUE_eqb r1 r2
      && VALUE_eqb x1 x2
  | Object x, Object y => Z.eqb x y
  | _, _ => false
  end.

(** ** Exceptions and results *)

Inductive rb_class : Type :=
| rb_eArgError
| rb_eTypeError
| rb_eRangeError
| mxnet_eError.     (* MXNet::Error, raised by CHECK_CALL *)

(** An argument of the format string of [rb_raise]: [%s] takes a C string,
    [%PRIsVALUE] takes a Ruby object (printed with its [to_s]); the
    messages of the Ruby runtime print the class of the offending object. *)
Inductive fmt_arg : Type :=
| CStr (s : string)
| Val (v : VALUE)
| ClassOf (v : VALUE).   (* the class object [CLASS_OF(v)] *)

Record exception : Type := Exc {
  exc_class : rb_class;
  exc_fmt : string;
  exc_args : list fmt_arg
}.

Inductive result (A : Type) : Type :=
| Ok (x : A)
| Raise (e : exception).
Arguments Ok {A} x.
Arguments Raise {A} e.

Definition rb_raise {A} (c : rb_class) (fmt : string) (args : list fmt_arg)
  : result A :=
  Raise (Exc c fmt args).

Definition rbind {A B} (r : result A) (f : A -> result B) : result B :=
  match r with
  | Ok x => f x
  | Raise e => Raise e
  end.

Declare Scope result_scope.
Delimit Scope result_scope with res.
Notation "x <- r ;; k" := (rbind r (fun x => k))
  (at level 61, r at next level, right associativity) : result_scope.

Definition is_ok {A} (r : result A) : bool :=
  match r with Ok _ => true | Raise _ => false end.

(** ** The part of the Ruby C API the file uses *)

Definition NIL_P (v : VALUE) : bool :=
  match v with Qnil => true | _ => false end.

Definition is_undef (v : VALUE) : bool :=
  match v with Qundef => true | _ => false end.

(** [rb_obj_is_kind_of(v, mxnet_cNDArray)] *)
Definition is_NDArray (v : VALUE) : bool :=
  match v with NDArray _ => true | _ => false end.

(** [rb_obj_is_kind_of(v, mxnet_cContext)] *)
Definition is_Context (v : VALUE) : bool :=
  match v with Context _ _ => true | _ => false end.

(** [rb_hash_lookup2(hash, key, def)] on the entries of a Hash: the value
    stored under [key], or [def]; no default proc is run. *)
Fixpoint rb_hash_lookup2 (entries : list (VALUE * VALUE)) (key def : VALUE)
  : VALUE :=
  match entries with
  | [] => def
  | (k, v) :: rest =>
      if VALUE_eqb k key then v else rb_hash_lookup2 rest key def
  end.

(** [rb_hash_lookup(hash, key)] is [rb_hash_lookup2(hash, key, Qnil)]. *)
Definition rb_hash_lookup (entries : list (VALUE * VALUE)) (key : VALUE)
  : VALUE :=
  rb_hash_lookup2 entries key Qnil.

Definition UINT_MAX : Z := 4294967295.
Definition INT_MIN : Z := -2147483648.

(** [(mx_uint) n]: conversion to a 32-bit unsigned integer. *)
Definition to_mx_uint (n : Z) : Z := n mod 2 ^ 32.

(** [NUM2UINT(v)] (LP64): an Integer between [INT_MIN] and [UINT_MAX] is
    converted, a negative one wrapping around; an Integer out of that range
    is a RangeError; [nil] and the objects without [to_int] are a TypeError. *)
Definition NUM2UINT (v : VALUE) : result Z :=
  match v with
  | Integer z =>
      if z <? INT_MIN then
        rb_raise rb_eRangeError
          "integer %ld too small to convert to `unsigned int'" [Val v]
      else if UINT_MAX <? z then
        rb_raise rb_eRangeError
          "integer %lu too big to convert to `unsigned int'" [Val v]
      else Ok (to_mx_uint z)
  | Qnil =>
      rb_raise rb_eTypeError "no implicit conversion from nil to integer" []
  | _ =>
      rb_raise rb_eTypeError "no implicit conversion of %s into Integer"
        [ClassOf v]
  end.

(** [rb_str_intern(str)] *)
Definition rb_str_intern (v : VALUE) : VALUE :=
  match v with
  | Str s => Sym s
  | _ => v
  end.

(** Modelled from the spec: [mxnet_get_handle] is declared in
    mxnet_internal.h and defined outside symbol.c. A handle wrapper (tensor,
    graph, execution object) gives its native handle; any other object is a
    type error. *)
Definition mxnet_get_handle (v : VALUE) : result handle :=
  match v with
  | NDArray h => Ok h
  | MXSymbol h => Ok h
  | Executor h _ _ _ _ _ _ _ => Ok h
  | _ => rb_raise rb_eTypeError "wrong argument type %s (expected handle)"
           [ClassOf v]
  end.

(** ** get_ndarray_inputs (symbol.c, lines 161-215) *)

Definition only_accept_Array : string :=
  "Only accept Array of NDArrays or Hash of Symbol to NDArray".
Definition only_accept_array : string :=
  "Only accept array of NDArrays or hash of Symbol to NDArray".

(** Lines 176-182: the loop over a positional input. *)
Fixpoint array_handles (elts : list VALUE) : result (list (option handle)) :=
  match elts with
  | [] => Ok []
  | ndary :: rest =>
      if negb (is_NDArray ndary) then
        rb_raise rb_eTypeError only_accept_Array []
      else
        (h <- mxnet_get_handle ndary ;;
         hs <- array_handles rest ;;
         Ok (Some h :: hs))%res
  end.

(** Lines 189-207: the loop over the names, for a Hash input. The result is
    the array built by [rb_ary_push] and the handles stored in
    [arg_handles]. *)
Fixpoint hash_inputs (arg_key : string) (entries : list (VALUE * VALUE))
    (arg_names : list VALUE) (allow_missing : bool)
  : result (list VALUE * list (option handle)) :=
  match arg_names with
  | [] => Ok ([], [])
  | name :: rest =>
      let ndary := rb_hash_lookup2 entries name Qundef in
      if negb (is_undef ndary) then
        if negb (is_NDArray ndary) then
          rb_raise rb_eTypeError only_accept_array []
        else
          (h <- mxnet_get_handle ndary ;;
           r <- hash_inputs arg_key entries rest allow_missing ;;
           Ok (ndary :: fst r, Some h :: snd r))%res
      else if allow_missing then
        (r <- hash_inputs arg_key entries rest allow_missing ;;
         Ok (Qnil :: fst r, None :: snd r))%res
      else
        rb_raise rb_eArgError "key `%PRIsVALUE` is missing in `%s`"
          [Val name; CStr arg_key]
  end.

(** The function returns [arg_arrays] and stores the handle array in
    [*out_handles]: here, a pair. [arg_names] are the elements of the
    name Array. *)
Definition get_ndarray_inputs (arg_key : string) (args : VALUE)
    (arg_names : list VALUE) (allow_missing : bool)
  : result (VALUE * list (option handle)) :=
  match args with
  | Ary elts =>
      if negb (Nat.eqb (List.length elts) (List.length arg_names)) then
        rb_raise rb_eArgError
          "Length of %s does not match the number of arguments" [CStr arg_key]
      else
        (hs <- array_handles elts ;;
         Ok (args, hs))%res
  | Hsh entries =>
      (r <- hash_inputs arg_key entries arg_names allow_missing ;;
       Ok (Ary (fst r), snd r))%res
  | _ => rb_raise rb_eTypeError only_accept_Array []
  end.

(** ** The native engine and the trace of a call *)

(** The arguments of one call of [MXExecutorBindEX], in the order of the C
    prototype; the output parameter is the result of the call. An array
    argument is the buffer the pointer designates, [None] being [NULL]. *)
Record BindCall : Type := {
  symbol_handle : handle;
  dev_type : Z;
  dev_id : Z;
  num_map_keys : Z;
  map_keys : option (list string);
  map_dev_types : option (list Z);
  map_dev_ids : option (list Z);
  len : Z;
  in_args : list (option handle);
  arg_grad_store : list (option handle);
  grad_req_type : list Z;
  aux_states_len : Z;
  aux_states : list (option handle);
  shared_exec : option handle
}.

(** The entry points of the engine this file calls. A call that returns a
    non-zero status is [inl] of the message [MXGetLastError] reports. *)
Record Native : Type := {
  MXSymbolListArguments : handle -> string + list string;
  MXSymbolListAuxiliaryStates : handle -> string + list string;
  MXExecutorBindEX : BindCall -> string + handle
}.

Inductive event : Type :=
| CallListArguments (h : handle)
| CallListAuxiliaryStates (h : handle)
| CallExecutorBindEX (c : BindCall)
| NewExecutor (h : handle).        (* [mxnet_executor_new] *)

(** A computation that calls the engine: the events in order, and the
    value returned or the exception raised. *)
Definition M (A : Type) : Type := (list event * result A)%type.

Definition ret {A} (x : A) : M A := ([], Ok x).

Definition lift {A} (r : result A) : M A := ([], r).

Definition mbind {A B} (m : M A) (f : A -> M B) : M B :=
  match m with
  | (t, Ok x) => let '(t', r) := f x in (t ++ t', r)
  | (t, Raise e) => (t, Raise e)
  end.

Declare Scope M_scope.
Delimit Scope M_scope with M.
Notation "x <- m ;; k" := (mbind m (fun x => k))
  (at level 61, m at next level, right associativity) : M_scope.
Notation "' pat <- m ;; k" :=
  (mbind m (fun x => match x with pat => k end))
  (at level 61, pat pattern, m at next level, right associativity) : M_scope.

Definition trace {A} (m : M A) : list event := fst m.
Definition outcome {A} (m : M A) : result A := snd m.

(** Modelled from the spec: the macro [CHECK_CALL] is defined in
    mxnet_internal.h. A failure of the native call is raised as the engine's
    error, with the message the engine reports, unchanged. *)
Definition CHECK_CALL {A} (ev : event) (status : string + A) : M A :=
  ([ev],
   match status with
   | inr x => Ok x
   | inl msg => rb_raise mxnet_eError "%s" [CStr msg]
   end).

Section Binding.

Variable engine : Native.

(** The entries of the Hash [mxnet_grad_req_map()] returns; the function is
    defined outside symbol.c. *)
Variable mxnet_grad_req_map : list (VALUE * VALUE).

(** Lines 49-66. The elements of the Array the function returns. *)
Definition symbol_list_arguments (obj : VALUE) : M (list VALUE) :=
  (handle <- lift (mxnet_get_handle obj) ;;
   args <- CHECK_CALL (CallListArguments handle)
             (MXSymbolListArguments engine handle) ;;
   ret (map Sym args))%M.

(** Lines 96-113. *)
Definition symbol_list_auxiliary_states (obj : VALUE) : M (list VALUE) :=
  (handle <- lift (mxnet_get_handle obj) ;;
   states <- CHECK_CALL (CallListAuxiliaryStates handle)
               (MXSymbolListAuxiliaryStates engine handle) ;;
   ret (map Sym states))%M.

(** *** Gradient requirements (lines 316-360) *)

(** A loop that converts each element and stores it, stopping at the first
    exception. *)
Fixpoint each {A B} (f : A -> result B) (l : list A) : result (list B) :=
  match l with
  | [] => Ok []
  | x :: rest =>
      (y <- f x ;;
       ys <- each f rest ;;
       Ok (y :: ys))%res
  end.

(** Lines 317-322: the default, and a String made a Symbol. *)
Definition normalize_grad_req (grad_req : VALUE) : VALUE :=
  let grad_req := if is_undef grad_req then Sym "write" else grad_req in
  match grad_req with
  | Str _ => rb_str_intern grad_req
  | _ => grad_req
  end.

(** Lines 323-360, on the normalized [grad_req]: the contents of
    [reqs_array], one entry per element the loop writes. *)
Definition grad_req_codes (grad_req : VALUE) (listed_arguments : list VALUE)
  : result (list Z) :=
  let grad_req_map := mxnet_grad_req_map in
  match grad_req with
  | Sym _ =>
      if is_undef (rb_hash_lookup2 grad_req_map grad_req Qundef) then
        rb_raise rb_eArgError "grad_req must be in %PRIsVALUE"
          [Val (Hsh grad_req_map)]
      else
        (req <- NUM2UINT (rb_hash_lookup grad_req_map grad_req) ;;
         Ok (repeat req (List.length listed_arguments)))%res
  | Ary items =>
      each (fun item => NUM2UINT (rb_hash_lookup grad_req_map item)) items
  | Hsh entries =>
      each (fun name => NUM2UINT (rb_hash_lookup2 entries name (Integer 0)))
        listed_arguments
  | _ =>
      rb_raise rb_eArgError
        "Invalid type of grad_req (%PRIsVALUE for Symbol, Array, or Hash)"
        [ClassOf grad_req]
  end.

(** *** Device groups (lines 217-239 and 362-388) *)

(** Modelled from the spec: [mxnet_context_get_device_type_id] and
    [mxnet_context_get_device_id] are defined outside symbol.c. A device
    context exposes its device-type code and its device-index code; any
    other object is a type error. *)
Definition mxnet_context_get_device_type_id (v : VALUE) : result Z :=
  match v with
  | Context t _ => Ok t
  | _ => rb_raise rb_eTypeError "wrong argument type %s (expected Context)"
           [ClassOf v]
  end.

Definition mxnet_context_get_device_id (v : VALUE) : result Z :=
  match v with
  | Context _ i => Ok i
  | _ => rb_raise rb_eTypeError "wrong argument type %s (expected Context)"
           [ClassOf v]
  end.

Definition has_null_byte (s : string) : bool :=
  existsb (Ascii.eqb Ascii.zero) (list_ascii_of_string s).

(** [StringValueCStr(v)] *)
Definition StringValueCStr (v : VALUE) : result string :=
  match v with
  | Str s =>
      if has_null_byte s then
        rb_raise rb_eArgError "string contains null byte" []
      else Ok s
  | _ => rb_raise rb_eTypeError "no implicit conversion of %s into String"
           [ClassOf v]
  end.

(** Lines 224-239: one step of [rb_hash_foreach]; the three values the
    callback stores at the cursor. *)
Definition symbol_bind_group2ctx_process_i (entry : VALUE * VALUE)
  : result (string * Z * Z) :=
  let '(key, val) := entry in
  let key := match key with Sym name => Str name | _ => key end in
  (k <- StringValueCStr key ;;
   t <- mxnet_context_get_device_type_id val ;;
   i <- mxnet_context_get_device_id val ;;
   Ok (k, t, i))%res.

Record ctx_map : Type := {
  num_ctx_map_keys : Z;
  ctx_map_keys : option (list string);
  ctx_map_dev_types : option (list Z);
  ctx_map_dev_ids : option (list Z)
}.

(** Lines 365-388, on [group2ctx] with [Qundef] already made [Qnil]. *)
Definition group2ctx_arrays (group2ctx : VALUE) : result ctx_map :=
  if negb (NIL_P group2ctx) then
    match group2ctx with
    | Hsh entries =>
        (cells <- each symbol_bind_group2ctx_process_i entries ;;
         Ok {| num_ctx_map_keys := to_mx_uint (Z.of_nat (List.length entries));
               ctx_map_keys := Some (map (fun c => fst (fst c)) cells);
               ctx_map_dev_types := Some (map (fun c => snd (fst c)) cells);
               ctx_map_dev_ids := Some (map snd cells) |})%res
    | _ => rb_raise rb_eTypeError "wrong argument type %s (expected Hash)"
             [ClassOf group2ctx]
    end
  else
    Ok {| num_ctx_map_keys := 0;
          ctx_map_keys := None;
          ctx_map_dev_types := None;
          ctx_map_dev_ids := None |}.

(** *** symbol_bind (lines 241-432) *)

(** The five keyword arguments as [rb_get_kwargs] leaves them: [Qundef] for
    a keyword that was not given. *)
Record bind_kwargs : Type := {
  kw_args_grad : VALUE;
  kw_grad_req : VALUE;
  kw_aux_states : VALUE;
  kw_group2ctx : VALUE;
  kw_shared_exec : VALUE
}.

Definition RARRAY_LEN (v : VALUE) : nat :=
  match v with
  | Ary elts => List.length elts
  | _ => 0%nat
  end.

(** Modelled from the spec: [mxnet_executor_new] and the three setters are
    defined outside symbol.c. The execution object is constructed from the
    handle, the source graph, the device context, the gradient-requirement
    spec and the device-group map; the setters attach the resolved
    sequences. *)
Definition mxnet_executor_new (exec_handle : handle)
    (obj ctx grad_req group2ctx : VALUE) : M VALUE :=
  ([NewExecutor exec_handle],
   Ok (Executor exec_handle obj ctx grad_req group2ctx Qnil Qnil Qnil)).

Definition mxnet_executor_set_arg_arrays (executor v : VALUE) : VALUE :=
  match executor with
  | Executor h s c g m _ gr ax => Executor h s c g m v gr ax
  | _ => executor
  end.

Definition mxnet_executor_set_grad_arrays (executor v : VALUE) : VALUE :=
  match executor with
  | Executor h s c g m ar _ ax => Executor h s c g m ar v ax
  | _ => executor
  end.

Definition mxnet_executor_set_aux_arrays (executor v : VALUE) : VALUE :=
  match executor with
  | Executor h s c g m ar gr _ => Executor h s c g m ar gr v
  | _ => executor
  end.

(** Lines 283-285. *)
Definition check_context (ctx : VALUE) : result unit :=
  if negb (is_Context ctx) then
    rb_raise rb_eTypeError "Context type error" []
  else Ok tt.

(** Lines 290-304. *)
Definition args_grad_inputs (args_grad args : VALUE)
    (listed_arguments : list VALUE)
  : result (VALUE * list (option handle)) :=
  let args_grad := if is_undef args_grad then Qnil else args_grad in
  if NIL_P args_grad then
    Ok (args_grad, repeat None (RARRAY_LEN args))
  else
    get_ndarray_inputs "args_grad" args_grad listed_arguments true.

(** Lines 306-314. *)
Definition aux_states_inputs (aux_states : VALUE) (aux_names : list VALUE)
  : result (VALUE * list (option handle)) :=
  let aux_states := if is_undef aux_states then Qnil else aux_states in
  let aux_states := if NIL_P aux_states then Ary [] else aux_states in
  get_ndarray_inputs "aux_states" aux_states aux_names false.

(** Lines 390-398. *)
Definition shared_exec_handle (shared_exec : VALUE)
  : result (option handle) :=
  let shared_exec := if is_undef shared_exec then Qnil else shared_exec in
  if negb (NIL_P shared_exec) then
    (h <- mxnet_get_handle shared_exec ;; Ok (Some h))%res
  else Ok None.

(** Lines 283-432, after [rb_scan_args] and [rb_get_kwargs]. The scratch
    buffers and their [xfree] are not part of the model. *)
Definition symbol_bind (obj ctx args : VALUE) (kw : bind_kwargs) : M VALUE :=
  (_ <- lift (check_context ctx) ;;
   listed_arguments <- symbol_list_arguments obj ;;
   '(args, args_handle) <-
      lift (get_ndarray_inputs "args" args listed_arguments false) ;;
   '(args_grad, args_grad_handle) <-
      lift (args_grad_inputs (kw_args_grad kw) args listed_arguments) ;;
   aux_names <- symbol_list_auxiliary_states obj ;;
   '(aux_states, aux_args_handle) <-
      lift (aux_states_inputs (kw_aux_states kw) aux_names) ;;
   let grad_req := normalize_grad_req (kw_grad_req kw) in
   reqs_array <- lift (grad_req_codes grad_req listed_arguments) ;;
   let group2ctx :=
     if is_undef (kw_group2ctx kw) then Qnil else kw_group2ctx kw in
   cm <- lift (group2ctx_arrays group2ctx) ;;
   shared <- lift (shared_exec_handle (kw_shared_exec kw)) ;;
   handle <- lift (mxnet_get_handle obj) ;;
   ctx_type <- lift (mxnet_context_get_device_type_id ctx) ;;
   ctx_id <- lift (mxnet_context_get_device_id ctx) ;;
   let call :=
     {| symbol_handle := handle;
        dev_type := ctx_type;
        dev_id := ctx_id;
        num_map_keys := num_ctx_map_keys cm;
        map_keys := ctx_map_keys cm;
        map_dev_types := ctx_map_dev_types cm;
        map_dev_ids := ctx_map_dev_ids cm;
        len := to_mx_uint (Z.of_nat (RARRAY_LEN args));
        in_args := args_handle;
        arg_grad_store := args_grad_handle;
        grad_req_type := reqs_array;
        aux_states_len := to_mx_uint (Z.of_nat (RARRAY_LEN aux_states));
        aux_states := aux_args_handle;
        shared_exec := shared |} in
   exec_handle <- CHECK_CALL (CallExecutorBindEX call)
                    (MXExecutorBindEX engine call) ;;
   executor <- mxnet_executor_new exec_handle obj ctx grad_req group2ctx ;;
   let executor := mxnet_executor_set_arg_arrays executor args in
   let executor := mxnet_executor_set_grad_arrays executor args_grad in
   let executor := mxnet_executor_set_aux_arrays executor aux_states in
   ret executor)%M.

End Binding.

(** ** Vocabulary of the statements *)

(** [key] is a key of the Hash. *)
Definition has_key (entries : list (VALUE * VALUE)) (key : VALUE) : bool :=
  existsb (fun e => VALUE_eqb (fst e) key) entries.

(** The entry of a handle array that a resolved element gives: the handle
    of a tensor, [NULL] for anything else. *)
Definition tensor_handle (v : VALUE) : option handle :=
  match v with
  | NDArray h => Some h
  | _ => None
  end.

(** The element of the resolved sequence for a name looked up in a Hash
    input: the stored value, or [nil] for a name that is not a key. *)
Definition hash_slot (entries : list (VALUE * VALUE)) (name : VALUE) : VALUE :=
  if has_key entries name then rb_hash_lookup2 entries name Qundef else Qnil.

(** A name whose resolution from the Hash does not raise under
    [allow_missing = true]: not a key, or mapped to a tensor. *)
Definition missing_or_tensor (entries : list (VALUE * VALUE)) (name : VALUE)
  : Prop :=
  has_key entries name = false \/
  exists h, rb_hash_lookup2 entries name Qundef = NDArray h.

Definition maps_to_tensor (entries : list (VALUE * VALUE)) (name : VALUE)
  : Prop :=
  exists h, rb_hash_lookup2 entries name Qundef = NDArray h.

(** A recognized gradient-requirement label: a key of the table whose value
    converts to the code [c]. *)
Definition label_code (grad_req_map : list (VALUE * VALUE)) (label : VALUE)
    (c : Z) : Prop :=
  has_key grad_req_map label = true /\
  NUM2UINT (rb_hash_lookup grad_req_map label) = Ok c.

Definition is_bind_call (ev : event) : bool :=
  match ev with CallExecutorBindEX _ => true | _ => false end.

Definition is_new_executor (ev : event) : bool :=
  match ev with NewExecutor _ => true | _ => false end.

(** No call of [MXExecutorBindEX] and no execution object in the trace. *)
Definition no_bind_call (t : list event) : Prop :=
  forallb (fun ev => negb (is_bind_call ev)) t = true.

Definition no_executor (t : list event) : Prop :=
  forallb (fun ev => negb (is_new_executor ev)) t = true.

Definition raises {A} (r : result A) : Prop := exists e, r = Raise e.

(** One of the resolution steps of [symbol_bind] fails on the input it is
    given there. *)
Inductive resolution_step_fails (engine : Native)
    (grad_req_map : list (VALUE * VALUE))
    (obj ctx args : VALUE) (kw : bind_kwargs) : Prop :=
| context_fails :
    raises (check_context ctx) ->
    resolution_step_fails engine grad_req_map obj ctx args kw
| args_fails : forall names,
    outcome (symbol_list_arguments engine obj) = Ok names ->
    raises (get_ndarray_inputs "args" args names false) ->
    resolution_step_fails engine grad_req_map obj ctx args kw
| args_grad_fails : forall names a,
    outcome (symbol_list_arguments engine obj) = Ok names ->
    raises (args_grad_inputs (kw_args_grad kw) a names) ->
    resolution_step_fails engine grad_req_map obj ctx args kw
| aux_states_fails : forall names,
    outcome (symbol_list_auxiliary_states engine obj) = Ok names ->
    raises (aux_states_inputs (kw_aux_states kw) names) ->
    resolution_step_fails engine grad_req_map obj ctx args kw
| grad_req_fails : forall names,
    outcome (symbol_list_arguments engine obj) = Ok names ->
    raises (grad_req_codes grad_req_map
              (normalize_grad_req (kw_grad_req kw)) names) ->
    resolution_step_fails engine grad_req_map obj ctx args kw
| group2ctx_fails :
    raises (group2ctx_arrays
              (if is_undef (kw_group2ctx kw) then Qnil
               else kw_group2ctx kw)) ->
    resolution_step_fails engine grad_req_map obj ctx args kw.

(** The exceptions of lines 173, 205 and 328. *)
Definition length_mismatch (arg_key : string) : exception :=
  Exc rb_eArgError "Length of %s does not match the number of arguments"
    [CStr arg_key].

Definition key_missing (name : VALUE) (arg_key : string) : exception :=
  Exc rb_eArgError "key `%PRIsVALUE` is missing in `%s`"
    [Val name; CStr arg_key].

(** An element the type check of lines 178 and 194 accepts. *)
Definition tensor (v : VALUE) : Prop := is_NDArray v = true.

(** The lookup of line 192 finds a value under the name. *)
Definition present (entries : list (VALUE * VALUE)) (name : VALUE) : Prop :=
  is_undef (rb_hash_lookup2 entries name Qundef) = false.

Definition invalid_grad_req (grad_req_map : list (VALUE * VALUE))
  : exception :=
  Exc rb_eArgError "grad_req must be in %PRIsVALUE" [Val (Hsh grad_req_map)].

(** The keyword arguments with [grad_req] replaced. *)
Definition set_grad_req (kw : bind_kwargs) (g : VALUE) : bind_kwargs :=
  {| kw_args_grad := kw_args_grad kw;
     kw_grad_req := g;
     kw_aux_states := kw_aux_states kw;
     kw_group2ctx := kw_group2ctx kw;
     kw_shared_exec := kw_shared_exec kw |}.

(** The call [symbol_bind] makes once every step before it has returned. *)
Definition bind_call_of (h : handle) (a : VALUE)
    (ah gh : list (option handle)) (reqs : list Z) (cm : ctx_map)
    (x : VALUE) (xh : list (option handle)) (sh : option handle)
    (t i : Z) : BindCall :=
  {| symbol_handle := h;
     dev_type := t;
     dev_id := i;
     num_map_keys := num_ctx_map_keys cm;
     map_keys := ctx_map_keys cm;
     map_dev_types := ctx_map_dev_types cm;
     map_dev_ids := ctx_map_dev_ids cm;
     len := to_mx_uint (Z.of_nat (RARRAY_LEN a));
     in_args := ah;
     arg_grad_store := gh;
     grad_req_type := reqs;
     aux_states_len := to_mx_uint (Z.of_nat (RARRAY_LEN x));
     aux_states := xh;
     shared_exec := sh |}.

Definition group2ctx_of (kw : bind_kwargs) : VALUE :=
  if is_undef (kw_group2ctx kw) then Qnil else kw_group2ctx kw.

(** Every step of [symbol_bind] before the native call returns: the graph
    handle [h], its argument and auxiliary-state names, the three resolved
    sequences [a], [g], [x] and the call [c] that is made. *)
Inductive resolved (engine : Native) (grad_req_map : list (VALUE * VALUE))
    (obj ctx args : VALUE) (kw : bind_kwargs)
    (h : handle) (names aux : list string) (a g x : VALUE) (c : BindCall)
  : Prop :=
| Resolved : forall ah gh xh reqs cm sh t i,
    check_context ctx = Ok tt ->
    mxnet_get_handle obj = Ok h ->
    MXSymbolListArguments engine h = inr names ->
    get_ndarray_inputs "args" args (map Sym names) false = Ok (a, ah) ->
    args_grad_inputs (kw_args_grad kw) a (map Sym names) = Ok (g, gh) ->
    MXSymbolListAuxiliaryStates engine h = inr aux ->
    aux_states_inputs (kw_aux_states kw) (map Sym aux) = Ok (x, xh) ->
    grad_req_codes grad_req_map (normalize_grad_req (kw_grad_req kw))
      (map Sym names) = Ok reqs ->
    group2ctx_arrays (group2ctx_of kw) = Ok cm ->
    shared_exec_handle (kw_shared_exec kw) = Ok sh ->
    mxnet_context_get_device_type_id ctx = Ok t ->
    mxnet_context_get_device_id ctx = Ok i ->
    c = bind_call_of h a ah gh reqs cm x xh sh t i ->
    resolved engine grad_req_map obj ctx args kw h names aux a g x c.

(** The three ways [symbol_bind] ends. *)
Inductive bind_run (engine : Native) (grad_req_map : list (VALUE * VALUE))
    (obj ctx args : VALUE) (kw : bind_kwargs) : M VALUE -> Prop :=
| bind_returns : forall h names aux a g x c eh,
    resolved engine grad_req_map obj ctx args kw h names aux a g x c ->
    MXExecutorBindEX engine c = inr eh ->
    bind_run engine grad_req_map obj ctx args kw
      ([CallListArguments h; CallListAuxiliaryStates h;
        CallExecutorBindEX c; NewExecutor eh],
       Ok (Executor eh obj ctx (normalize_grad_req (kw_grad_req kw))
             (group2ctx_of kw) a g x))
| bind_native_error : forall h names aux a g x c msg,
    resolved engine grad_req_map obj ctx args kw h names aux a g x c ->
    MXExecutorBindEX engine c = inl msg ->
    bind_run engine grad_req_map obj ctx args kw
      ([CallListArguments h; CallListAuxiliaryStates h; CallExecutorBindEX c],
       Raise (Exc mxnet_eError "%s" [CStr msg]))
| bind_aborts : forall t e,
    no_bind_call t -> no_executor t ->
    (forall h names aux a g x c,
       ~ resolved engine grad_req_map obj ctx args kw h names aux a g x c) ->
    bind_run engine grad_req_map obj ctx args kw (t, Raise e).

(** *** Vocabulary of the further properties *)

(** The entries of a Hash whose key is one of the listed names. *)
Definition listed_only (names : list VALUE) (entries : list (VALUE * VALUE))
  : list (VALUE * VALUE) :=
  filter (fun e => existsb (VALUE_eqb (fst e)) names) entries.

(** The keyword arguments with [nil] given for each of args_grad,
    aux_states, group2ctx and shared_exec that was not given. *)
Definition nil_for_undef (kw : bind_kwargs) : bind_kwargs :=
  let nil_if_undef v := if is_undef v then Qnil else v in
  {| kw_args_grad := nil_if_undef (kw_args_grad kw);
     kw_grad_req := kw_grad_req kw;
     kw_aux_states := nil_if_undef (kw_aux_states kw);
     kw_group2ctx := nil_if_undef (kw_group2ctx kw);
     kw_shared_exec := nil_if_undef (kw_shared_exec kw) |}.

(** An entry of a device-group Hash with its label given as a String
    instead of a Symbol. Mapped over the entries of a Hash it gives the
    entries of a Hash only when no two keys become equal. *)
Definition key_as_string (entry : VALUE * VALUE) : VALUE * VALUE :=
  match fst entry with
  | Sym name => (Str name, snd entry)
  | _ => entry
  end.

(** A value that is none of the forms of grad_req the dispatch of lines
    317-355 knows. *)
Definition unknown_grad_req_form (g : VALUE) : Prop :=
  match g with
  | Qundef | Str _ | Sym _ | Ary _ | Hsh _ => False
  | _ => True
  end.

Definition invalid_grad_req_type (g : VALUE) : exception :=
  Exc rb_eArgError
    "Invalid type of grad_req (%PRIsVALUE for Symbol, Array, or Hash)"
    [ClassOf g].

(** The code a grad_req mapping stores under a name, 0 for a name that is
    not a key. *)
Definition stored_code (entries : list (VALUE * VALUE)) (name : VALUE) : Z :=
  match rb_hash_lookup2 entries name (Integer 0) with
  | Integer z => z
  | _ => 0
  end.

(** The call bind makes for the graph of handle 1 with the tensors of
    handles 10 and 11, the "write" code 1 and everything else left out. *)
Definition sample_call : BindCall :=
  bind_call_of 1 (Ary [NDArray 10; NDArray 11]) [Some 10; Some 11]
    [None; None] [1; 1]
    {| num_ctx_map_keys := 0; ctx_map_keys := None;
       ctx_map_dev_types := None; ctx_map_dev_ids := None |}
    (Ary []) [] None 1 0.

(** *** A sample engine, for the concrete instances *)

Module Sample.

(** A graph with arguments [a] and [b]; the graph of handle 2 has one
    auxiliary state. *)
Definition engine : Native := {|
  MXSymbolListArguments := fun _ => inr ["a"; "b"]%string;
  MXSymbolListAuxiliaryStates :=
    fun h => if Z.eqb h 2 then inr ["moving_mean"%string] else inr [];
  MXExecutorBindEX := fun _ => inr 99
|}.

Definition grad_req_map : list (VALUE * VALUE) :=
  [(Sym "null", Integer 0); (Sym "write", Integer 1); (Sym "add", Integer 3)].

Definition no_kwargs : bind_kwargs := {|
  kw_args_grad := Qundef;
  kw_grad_req := Qundef;
  kw_aux_states := Qundef;
  kw_group2ctx := Qundef;
  kw_shared_exec := Qundef
|}.

Definition with_grad_req (g : VALUE) : bind_kwargs := {|
  kw_args_grad := Qundef;
  kw_grad_req := g;
  kw_aux_states := Qundef;
  kw_group2ctx := Qundef;
  kw_shared_exec := Qundef
|}.

End Sample.

(** ** Hash lookup *)

Lemma VALUE_eqb_eq : forall a b, VALUE_eqb a b = true -> a = b.
Proof.
  fix IH 1.
  intros a b; destruct a; destruct b; simpl; try discriminate; intro H;
    try reflexivity;
    try (apply Z.eqb_eq in H; now subst);
    try (apply String.eqb_eq in H; now subst).
  - f_equal. revert elts0 H.
    induction elts as [|x xs IHxs]; intros [|y ys] H; try discriminate; auto.
    apply andb_true_iff in H. destruct H as [H1 H2].
    f_equal; [apply IH; exact H1 | apply IHxs; exact H2].
  - f_equal. revert entries0 H.
    induction entries as [|[k v] xs IHxs]; intros [|[k' v'] ys] H;
      try discriminate; auto.
    apply andb_true_iff in H. destruct H as [H1 H3].
    apply andb_true_iff in H1. destruct H1 as [H1 H2].
    f_equal; [f_equal; apply IH; assumption | apply IHxs; exact H3].
  - apply andb_true_iff in H. destruct H as [H1 H2].
    apply Z.eqb_eq in H1, H2. now subst.
  - repeat (apply andb_true_iff in H; let H' := fresh in destruct H as [H H']).
    apply Z.eqb_eq in H. subst.
    f_equal; apply IH; assumption.
Qed.

Lemma lookup2_absent entries key def :
  has_key entries key = false -> rb_hash_lookup2 entries key def = def.
Proof.
  induction entries as [|[k v] rest IH]; simpl; intro H; [reflexivity|].
  apply orb_false_iff in H. destruct H as [H1 H2].
  rewrite H1. now apply IH.
Qed.

Lemma lookup2_present entries key def def' :
  has_key entries key = true ->
  rb_hash_lookup2 entries key def = rb_hash_lookup2 entries key def'.
Proof.
  induction entries as [|[k v] rest IH]; simpl; intro H; [discriminate|].
  destruct (VALUE_eqb k key); [reflexivity|]. now apply IH.
Qed.

Lemma lookup2_tensor_has_key entries key h :
  rb_hash_lookup2 entries key Qundef = NDArray h ->
  has_key entries key = true.
Proof.
  intro H. destruct (has_key entries key) eqn:E; [reflexivity|].
  rewrite (lookup2_absent _ _ _ E) in H. discriminate.
Qed.

(** The value found under a key does not depend on the order of the
    entries, the keys of a Hash being distinct. *)
Lemma lookup2_Permutation entries entries' :
  Permutation entries entries' ->
  NoDup (map fst entries) ->
  forall key def,
    rb_hash_lookup2 entries key def = rb_hash_lookup2 entries' key def.
Proof.
  induction 1 as [| [k v] l l' HP IH | [k1 v1] [k2 v2] l | l l' l'' HP1 IH1 HP2 IH2];
    intros ND key def; simpl.
  - reflexivity.
  - inversion ND; subst. now rewrite IH.
  - destruct (VALUE_eqb k1 key) eqn:E1; destruct (VALUE_eqb k2 key) eqn:E2;
      try reflexivity.
    apply VALUE_eqb_eq in E1, E2. subst.
    inversion ND as [|? ? Hnin _]; subst. exfalso. apply Hnin. now left.
  - rewrite IH1 by assumption. apply IH2.
    apply (Permutation_NoDup (Permutation_map fst HP1) ND).
Qed.

(** ** Input resolution *)

Lemma tensor_inv v : tensor v -> exists h, v = NDArray h.
Proof. destruct v; try discriminate. intros _. now exists h. Qed.

(** The positional loop: handles of the elements when all are tensors, the
    type error of line 179 at the first element that is not. *)
Lemma array_handles_spec elts :
  array_handles elts =
  if forallb is_NDArray elts then Ok (map tensor_handle elts)
  else Raise (Exc rb_eTypeError only_accept_Array []).
Proof.
  induction elts as [|x xs IH]; simpl; [reflexivity|].
  destruct x; simpl; try reflexivity.
  rewrite IH. destruct (forallb is_NDArray xs); reflexivity.
Qed.

Lemma forallb_tensor elts :
  Forall tensor elts <-> forallb is_NDArray elts = true.
Proof.
  rewrite forallb_forall, Forall_forall. reflexivity.
Qed.

Lemma get_ndarray_inputs_Ary arg_key elts arg_names allow_missing :
  get_ndarray_inputs arg_key (Ary elts) arg_names allow_missing =
  if negb (Nat.eqb (List.length elts) (List.length arg_names)) then
    Raise (length_mismatch arg_key)
  else if forallb is_NDArray elts then
    Ok (Ary elts, map tensor_handle elts)
  else Raise (Exc rb_eTypeError only_accept_Array []).
Proof.
  unfold get_ndarray_inputs.
  destruct (negb _); [reflexivity|].
  rewrite array_handles_spec.
  destruct (forallb is_NDArray elts); reflexivity.
Qed.

(** One iteration of the loop of lines 189-207. *)
Lemma hash_inputs_cons arg_key entries name rest allow_missing :
  hash_inputs arg_key entries (name :: rest) allow_missing =
  let ndary := rb_hash_lookup2 entries name Qundef in
  if negb (is_undef ndary) then
    if negb (is_NDArray ndary) then
      Raise (Exc rb_eTypeError only_accept_array [])
    else
      (h <- mxnet_get_handle ndary ;;
       r <- hash_inputs arg_key entries rest allow_missing ;;
       Ok (ndary :: fst r, Some h :: snd r))%res
  else if allow_missing then
    (r <- hash_inputs arg_key entries rest allow_missing ;;
     Ok (Qnil :: fst r, None :: snd r))%res
  else Raise (key_missing name arg_key).
Proof. reflexivity. Qed.

Lemma hash_slot_tensor entries name h :
  rb_hash_lookup2 entries name Qundef = NDArray h ->
  hash_slot entries name = NDArray h.
Proof.
  intro H. unfold hash_slot. now rewrite (lookup2_tensor_has_key _ _ H).
Qed.

Lemma hash_slot_absent entries name :
  has_key entries name = false -> hash_slot entries name = Qnil.
Proof. intro H. unfold hash_slot. now rewrite H. Qed.

(** The loop over the names, on a prefix of names that resolve. *)
Lemma hash_inputs_app arg_key entries pre rest allow_missing :
  Forall (fun n => maps_to_tensor entries n \/
                   (allow_missing = true /\ has_key entries n = false)) pre ->
  hash_inputs arg_key entries (pre ++ rest) allow_missing =
  (r <- hash_inputs arg_key entries rest allow_missing ;;
   Ok (map (hash_slot entries) pre ++ fst r,
       map (fun n => tensor_handle (hash_slot entries n)) pre ++ snd r))%res.
Proof.
  induction 1 as [|n pre Hn Hpre IH].
  - simpl. destruct (hash_inputs arg_key entries rest allow_missing) as [[a b]|e];
      reflexivity.
  - rewrite <- app_comm_cons, hash_inputs_cons, IH. cbv zeta.
    rewrite !map_cons.
    destruct Hn as [[h Hh] | [Ham Hk]].
    + rewrite (hash_slot_tensor _ _ Hh), Hh. simpl. 
      destruct (hash_inputs arg_key entries rest allow_missing) as [[a b]|e];
        reflexivity.
    + rewrite (hash_slot_absent _ _ Hk), (lookup2_absent _ _ _ Hk), Ham. simpl. 
      destruct (hash_inputs arg_key entries rest true) as [[a b]|e];
        subst; reflexivity.
Qed.

Lemma hash_inputs_resolved arg_key entries names allow_missing :
  Forall (fun n => maps_to_tensor entries n \/
                   (allow_missing = true /\ has_key entries n = false)) names ->
  hash_inputs arg_key entries names allow_missing =
  Ok (map (hash_slot entries) names,
      map (fun n => tensor_handle (hash_slot entries n)) names).
Proof.
  intro H. rewrite <- (app_nil_r names) at 1.
  rewrite (hash_inputs_app _ _ H). simpl. now rewrite !app_nil_r.
Qed.

(** A listed name mapped to something that is not a tensor: the type error
    of line 195, provided no earlier name stops the loop with the
    missing-key error. *)
Lemma hash_inputs_type_error arg_key entries pre name post allow_missing :
  is_undef (rb_hash_lookup2 entries name Qundef) = false ->
  is_NDArray (rb_hash_lookup2 entries name Qundef) = false ->
  allow_missing = true \/
  Forall (fun n => is_undef (rb_hash_lookup2 entries n Qundef) = false) pre ->
  hash_inputs arg_key entries (pre ++ name :: post) allow_missing =
  Raise (Exc rb_eTypeError only_accept_array []).
Proof.
  intros Hu Ht Hpre.
  induction pre as [|n pre IH].
  - simpl. rewrite Hu, Ht. reflexivity.
  - rewrite <- app_comm_cons, hash_inputs_cons. cbv zeta.
    destruct (is_undef (rb_hash_lookup2 entries n Qundef)) eqn:En; simpl.
    + destruct Hpre as [-> | HF].
      * rewrite IH by now left. reflexivity.
      * inversion HF; subst. congruence.
    + destruct (rb_hash_lookup2 entries n Qundef); simpl; try reflexivity.
      rewrite IH; [reflexivity|].
      destruct Hpre as [-> | HF]; [now left|right]. now inversion HF.
Qed.

(** With a listed name mapped to something that is not a tensor the loop
    never returns. *)
Lemma hash_inputs_not_tensor arg_key entries names name allow_missing :
  In name names ->
  is_undef (rb_hash_lookup2 entries name Qundef) = false ->
  is_NDArray (rb_hash_lookup2 entries name Qundef) = false ->
  raises (hash_inputs arg_key entries names allow_missing).
Proof.
  intros Hin Hu Ht. induction names as [|n names IH]; [contradiction|].
  rewrite hash_inputs_cons. cbv zeta. destruct Hin as [-> | Hin].
  - rewrite Hu, Ht. simpl. eexists; reflexivity.
  - destruct (IH Hin) as [e He]. rewrite He.
    destruct (is_undef (rb_hash_lookup2 entries n Qundef)); simpl.
    + destruct allow_missing; eexists; reflexivity.
    + destruct (is_NDArray (rb_hash_lookup2 entries n Qundef)); simpl;
        [|eexists; reflexivity].
      destruct (mxnet_get_handle (rb_hash_lookup2 entries n Qundef));
        eexists; reflexivity.
Qed.

(** The result of the loop over the names depends on the Hash only through
    the lookups of the listed names. *)
Lemma hash_inputs_ext arg_key entries entries' names allow_missing :
  (forall n, In n names ->
     rb_hash_lookup2 entries' n Qundef = rb_hash_lookup2 entries n Qundef) ->
  hash_inputs arg_key entries' names allow_missing =
  hash_inputs arg_key entries names allow_missing.
Proof.
  induction names as [|n names IH]; intro H; [reflexivity|].
  rewrite !hash_inputs_cons. cbv zeta.
  rewrite (H n) by now left.
  rewrite IH by (intros m Hm; apply H; now right).
  reflexivity.
Qed.

Lemma maps_to_tensor_slot entries names :
  Forall (maps_to_tensor entries) names ->
  map (hash_slot entries) names =
  map (fun n => rb_hash_lookup2 entries n Qundef) names.
Proof.
  induction 1 as [|n names [h Hh] _ IH]; simpl; [reflexivity|].
  now rewrite IH, (hash_slot_tensor _ _ Hh), Hh.
Qed.

Lemma maps_to_tensor_handles entries names :
  Forall (maps_to_tensor entries) names ->
  map (fun n => tensor_handle (hash_slot entries n)) names =
  map (fun n => tensor_handle (rb_hash_lookup2 entries n Qundef)) names.
Proof.
  induction 1 as [|n names [h Hh] _ IH]; simpl; [reflexivity|].
  now rewrite IH, (hash_slot_tensor _ _ Hh), Hh.
Qed.

(** *** Positional input *)

(** C2, as amended. For every name list of length N and every input
    supplied as an ordered sequence, input resolution succeeds exactly
    when the length of the sequence is N and every element is a tensor; it
    then returns the sequence itself, in the order supplied, with a
    parallel handle array of length N; when the length differs from N it
    fails, for every sequence, with the argument-count error, whose
    message carries the role. *)
Theorem positional_inputs_resolution arg_key elts arg_names allow_missing :
  (is_ok (get_ndarray_inputs arg_key (Ary elts) arg_names allow_missing)
     = true
   <-> List.length elts = List.length arg_names /\ Forall tensor elts) /\
  (List.length elts = List.length arg_names ->
   Forall tensor elts ->
   get_ndarray_inputs arg_key (Ary elts) arg_names allow_missing =
     Ok (Ary elts, map tensor_handle elts) /\
   List.length (map tensor_handle elts) = List.length arg_names /\
   Forall (fun h => h <> None) (map tensor_handle elts)) /\
  (List.length elts <> List.length arg_names ->
   get_ndarray_inputs arg_key (Ary elts) arg_names allow_missing =
     Raise (length_mismatch arg_key)).
Proof.
  rewrite get_ndarray_inputs_Ary.
  destruct (Nat.eqb_spec (List.length elts) (List.length arg_names)) as [E|E];
    simpl.
  - split; [|split; [|contradiction]].
    + destruct (forallb is_NDArray elts) eqn:F; simpl.
      * apply forallb_tensor in F. tauto.
      * split; [discriminate|]. intros [_ HT].
        apply forallb_tensor in HT. congruence.
    + intros _ HT. apply forallb_tensor in HT as HT'. rewrite HT'.
      split; [reflexivity|]. split; [now rewrite length_map|].
      apply Forall_map. apply Forall_impl with (2 := HT).
      intros v Hv. destruct (tensor_inv Hv) as [h ->]. discriminate.
  - split; [split; [discriminate | tauto]|].
    split; [contradiction | reflexivity].
Qed.

Lemma positional_inputs_resolution_witness :
  List.length [NDArray 10; NDArray 11] = List.length [Sym "a"; Sym "b"] /\
  Forall tensor [NDArray 10; NDArray 11] /\
  get_ndarray_inputs "args" (Ary [NDArray 10; NDArray 11])
    [Sym "a"; Sym "b"] false =
    Ok (Ary [NDArray 10; NDArray 11], [Some 10; Some 11]) /\
  List.length [NDArray 10] <> List.length [Sym "a"; Sym "b"] /\
  get_ndarray_inputs "args" (Ary [NDArray 10]) [Sym "a"; Sym "b"] false =
    Raise (length_mismatch "args").
Proof.
  assert (HT : Forall tensor [NDArray 10; NDArray 11])
    by (repeat constructor).
  assert (HN : List.length [NDArray 10] <> List.length [Sym "a"; Sym "b"])
    by discriminate.
  split; [reflexivity|]. split; [exact HT|]. split; [|split; [exact HN|]].
  - exact (proj1 (proj1 (proj2 (positional_inputs_resolution
                                  "args" [NDArray 10; NDArray 11]
                                  [Sym "a"; Sym "b"] false))
                        eq_refl HT)).
  - exact (proj2 (proj2 (positional_inputs_resolution
                           "args" [NDArray 10] [Sym "a"; Sym "b"] false))
             HN).
Defined.

(** C2 as stated fails: a sequence of the right length whose element is
    not a tensor is rejected by the type check of line 178. *)
Lemma positional_inputs_length_not_sufficient :
  List.length [Qnil] = List.length [Sym "a"] /\
  get_ndarray_inputs "args" (Ary [Qnil]) [Sym "a"] false =
    Raise (Exc rb_eTypeError only_accept_Array []) /\
  ~ (is_ok (get_ndarray_inputs "args" (Ary [Qnil]) [Sym "a"] false) = true
     <-> List.length [Qnil] = List.length [Sym "a"]).
Proof.
  split; [reflexivity|]. split; [reflexivity|].
  intros [_ H]. specialize (H eq_refl). discriminate H.
Qed.

(** *** Input by name *)

(** C3. For every name list and every mapping that holds a tensor for
    every listed name, input resolution returns the tensors in the order of
    the name list (position i holds the tensor found under the i-th name),
    with their handles in the same order; the result depends on the mapping
    only through the values found under the listed names, so it is the
    same for any enumeration order of the entries. *)
Theorem hash_inputs_in_name_order arg_key entries arg_names allow_missing :
  Forall (maps_to_tensor entries) arg_names ->
  get_ndarray_inputs arg_key (Hsh entries) arg_names allow_missing =
    Ok (Ary (map (fun n => rb_hash_lookup2 entries n Qundef) arg_names),
        map (fun n => tensor_handle (rb_hash_lookup2 entries n Qundef))
          arg_names) /\
  (forall entries',
     Permutation entries entries' ->
     NoDup (map fst entries) ->
     get_ndarray_inputs arg_key (Hsh entries') arg_names allow_missing =
     get_ndarray_inputs arg_key (Hsh entries) arg_names allow_missing) /\
  (forall entries',
     (forall n, In n arg_names ->
        rb_hash_lookup2 entries' n Qundef =
        rb_hash_lookup2 entries n Qundef) ->
     get_ndarray_inputs arg_key (Hsh entries') arg_names allow_missing =
     get_ndarray_inputs arg_key (Hsh entries) arg_names allow_missing).
Proof.
  intro HT. split; [|split].
  - unfold get_ndarray_inputs. rewrite hash_inputs_resolved.
    + simpl. now rewrite maps_to_tensor_slot, maps_to_tensor_handles.
    + apply Forall_impl with (2 := HT). intros n Hn. now left.
  - intros entries' HP ND. unfold get_ndarray_inputs.
    rewrite (@hash_inputs_ext arg_key entries entries'); [reflexivity|].
    intros n _. symmetry. now apply lookup2_Permutation.
  - intros entries' Hext. unfold get_ndarray_inputs.
    now rewrite (@hash_inputs_ext arg_key entries entries').
Qed.

Lemma hash_inputs_in_name_order_witness :
  Forall (maps_to_tensor [(Sym "b", NDArray 11); (Sym "a", NDArray 10)])
    [Sym "a"; Sym "b"] /\
  get_ndarray_inputs "args"
    (Hsh [(Sym "b", NDArray 11); (Sym "a", NDArray 10)])
    [Sym "a"; Sym "b"] false =
  Ok (Ary [NDArray 10; NDArray 11], [Some 10; Some 11]).
Proof.
  assert (HT : Forall
                 (maps_to_tensor
                    [(Sym "b", NDArray 11); (Sym "a", NDArray 10)])
                 [Sym "a"; Sym "b"]).
  { repeat constructor; eexists; reflexivity. }
  split; [exact HT|].
  exact (proj1 (hash_inputs_in_name_order "args" false HT)).
Defined.

(** With missing values disallowed and a listed name that is not a key,
    the loop never returns. *)
Lemma hash_inputs_missing_raises arg_key entries names name :
  In name names ->
  has_key entries name = false ->
  raises (hash_inputs arg_key entries names false).
Proof.
  intros Hin Hk. induction names as [|n names IH]; [contradiction|].
  rewrite hash_inputs_cons. cbv zeta. destruct Hin as [-> | Hin].
  - rewrite (lookup2_absent _ _ _ Hk). simpl. eexists; reflexivity.
  - destruct (IH Hin) as [e He]. rewrite He.
    destruct (is_undef (rb_hash_lookup2 entries n Qundef)); simpl.
    + eexists; reflexivity.
    + destruct (is_NDArray (rb_hash_lookup2 entries n Qundef)); simpl;
        [|eexists; reflexivity].
      destruct (mxnet_get_handle (rb_hash_lookup2 entries n Qundef));
        eexists; reflexivity.
Qed.

Lemma missing_or_tensor_slot entries n :
  missing_or_tensor entries n ->
  (hash_slot entries n = Qnil <-> has_key entries n = false) /\
  (tensor_handle (hash_slot entries n) = None <-> has_key entries n = false).
Proof.
  intros [Hk | [h Hh]].
  - rewrite (hash_slot_absent _ _ Hk). simpl. tauto.
  - rewrite (hash_slot_tensor _ _ Hh), (lookup2_tensor_has_key _ _ Hh).
    simpl. split; split; discriminate.
Qed.

(** C4, as amended. For every name list and mapping-form input: if missing
    values are disallowed and a listed name is not a key of the mapping,
    input resolution fails, and when every listed name before that name
    maps to a tensor it fails with the missing-key error, whose message
    carries that name and the role; if missing values are allowed and
    every listed name that is a key maps to a tensor, it succeeds, and the
    output sequence holds nil, and the handle array NULL, at exactly the
    positions of the names that are not keys. *)
Theorem hash_inputs_missing_name arg_key entries arg_names :
  (forall name,
     In name arg_names ->
     has_key entries name = false ->
     raises (get_ndarray_inputs arg_key (Hsh entries) arg_names false)) /\
  (forall pre name post,
     arg_names = pre ++ name :: post ->
     Forall (maps_to_tensor entries) pre ->
     has_key entries name = false ->
     get_ndarray_inputs arg_key (Hsh entries) arg_names false =
       Raise (key_missing name arg_key)) /\
  (Forall (missing_or_tensor entries) arg_names ->
   get_ndarray_inputs arg_key (Hsh entries) arg_names true =
     Ok (Ary (map (hash_slot entries) arg_names),
         map (fun n => tensor_handle (hash_slot entries n)) arg_names) /\
   forall i n,
     nth_error arg_names i = Some n ->
     (nth_error (map (hash_slot entries) arg_names) i = Some Qnil
      <-> has_key entries n = false) /\
     (nth_error (map (fun n => tensor_handle (hash_slot entries n))
                   arg_names) i = Some None
      <-> has_key entries n = false)).
Proof.
  split; [|split].
  - intros name Hin Hk. unfold get_ndarray_inputs.
    destruct (@hash_inputs_missing_raises arg_key _ _ _ Hin Hk) as [e He].
    rewrite He. eexists; reflexivity.
  - intros pre name post -> Hpre Hk. unfold get_ndarray_inputs.
    rewrite hash_inputs_app.
    + rewrite hash_inputs_cons. cbv zeta.
      rewrite (lookup2_absent _ _ _ Hk). reflexivity.
    + apply Forall_impl with (2 := Hpre). intros n Hn. now left.
  - intro HF. split.
    + unfold get_ndarray_inputs. rewrite hash_inputs_resolved; [reflexivity|].
      apply Forall_impl with (2 := HF).
      intros n [Hk | Ht]; [right; now split | now left].
    + intros i n Hi. rewrite !nth_error_map, Hi. simpl.
      assert (Hn : missing_or_tensor entries n).
      { rewrite Forall_forall in HF. apply HF.
        now apply nth_error_In with (n := i). }
      destruct (missing_or_tensor_slot Hn) as [H1 H2].
      split; (split; [intro H; injection H as H; tauto
                     | intro H; f_equal; tauto]).
Qed.

Lemma hash_inputs_missing_name_witness :
  Forall (missing_or_tensor [(Sym "a", NDArray 10)]) [Sym "a"; Sym "b"] /\
  has_key [(Sym "a", NDArray 10)] (Sym "b") = false /\
  get_ndarray_inputs "args" (Hsh [(Sym "a", NDArray 10)])
    [Sym "a"; Sym "b"] false = Raise (key_missing (Sym "b") "args") /\
  get_ndarray_inputs "args_grad" (Hsh [(Sym "a", NDArray 10)])
    [Sym "a"; Sym "b"] true = Ok (Ary [NDArray 10; Qnil], [Some 10; None]).
Proof.
  assert (HF : Forall (missing_or_tensor [(Sym "a", NDArray 10)])
                 [Sym "a"; Sym "b"]).
  { constructor; [right; eexists; reflexivity|].
    constructor; [left; reflexivity | constructor]. }
  assert (HP : Forall (maps_to_tensor [(Sym "a", NDArray 10)]) [Sym "a"]).
  { constructor; [eexists; reflexivity | constructor]. }
  split; [exact HF|]. split; [reflexivity|]. split.
  - exact (proj1 (proj2 (hash_inputs_missing_name "args"
                           [(Sym "a", NDArray 10)] [Sym "a"; Sym "b"]))
             [Sym "a"] (Sym "b") [] eq_refl HP eq_refl).
  - exact (proj1 (proj2 (proj2 (hash_inputs_missing_name "args_grad"
                                  [(Sym "a", NDArray 10)]
                                  [Sym "a"; Sym "b"])) HF)).
Defined.

(** C4 as stated fails: with a listed name absent, a value that is not a
    tensor under an earlier name raises the type error of line 195,
    whether missing values are allowed or not. *)
Lemma missing_name_behind_non_tensor :
  has_key [(Sym "a", Integer 1)] (Sym "b") = false /\
  get_ndarray_inputs "args_grad" (Hsh [(Sym "a", Integer 1)])
    [Sym "a"; Sym "b"] true =
    Raise (Exc rb_eTypeError only_accept_array []) /\
  get_ndarray_inputs "args" (Hsh [(Sym "a", Integer 1)])
    [Sym "a"; Sym "b"] false =
    Raise (Exc rb_eTypeError only_accept_array []).
Proof. repeat split. Qed.

(** *** Inputs that are not tensors *)

(** C8, as amended. An input that is neither an ordered sequence nor a
    mapping fails with a type error. A sequence with an element that is
    not a tensor always fails: with the type error when its length is N,
    with the argument-count error otherwise. A mapping with a value that
    is not a tensor under a listed name always fails: with the type error
    when missing values are allowed or every earlier listed name is found
    in the mapping. Input resolution makes no native call. *)
Theorem non_tensor_input_rejected arg_key arg_names allow_missing :
  (forall args,
     (forall l, args <> Ary l) -> (forall l, args <> Hsh l) ->
     get_ndarray_inputs arg_key args arg_names allow_missing =
       Raise (Exc rb_eTypeError only_accept_Array [])) /\
  (forall elts v,
     In v elts -> is_NDArray v = false ->
     raises (get_ndarray_inputs arg_key (Ary elts) arg_names allow_missing) /\
     (List.length elts = List.length arg_names ->
      get_ndarray_inputs arg_key (Ary elts) arg_names allow_missing =
        Raise (Exc rb_eTypeError only_accept_Array [])) /\
     (List.length elts <> List.length arg_names ->
      get_ndarray_inputs arg_key (Ary elts) arg_names allow_missing =
        Raise (length_mismatch arg_key))) /\
  (forall entries pre name post,
     arg_names = pre ++ name :: post ->
     present entries name ->
     is_NDArray (rb_hash_lookup2 entries name Qundef) = false ->
     raises (get_ndarray_inputs arg_key (Hsh entries) arg_names
               allow_missing) /\
     (allow_missing = true \/ Forall (present entries) pre ->
      get_ndarray_inputs arg_key (Hsh entries) arg_names allow_missing =
        Raise (Exc rb_eTypeError only_accept_array []))) /\
  (forall args,
     trace (lift (get_ndarray_inputs arg_key args arg_names allow_missing))
     = []).
Proof.
  split; [|split; [|split]].
  - intros args HA HH. destruct args; try reflexivity.
    + now destruct (HA elts).
    + now destruct (HH entries).
  - intros elts v Hin Hv. rewrite get_ndarray_inputs_Ary.
    assert (HF : forallb is_NDArray elts = false).
    { destruct (forallb is_NDArray elts) eqn:E; [|reflexivity].
      rewrite forallb_forall in E. rewrite (E v Hin) in Hv. discriminate. }
    rewrite HF.
    destruct (Nat.eqb_spec (List.length elts) (List.length arg_names));
      simpl; (split; [eexists; reflexivity|]);
      split; intro; (reflexivity || contradiction).
  - intros entries pre name post -> Hp Hv. unfold get_ndarray_inputs. split.
    + destruct (@hash_inputs_not_tensor arg_key entries (pre ++ name :: post)
                  name allow_missing) as [e He]; auto.
      * apply in_elt.
      * rewrite He. eexists; reflexivity.
    + intro Hpre. now rewrite hash_inputs_type_error.
  - reflexivity.
Qed.

Lemma non_tensor_input_rejected_witness :
  In Qnil [NDArray 10; Qnil] /\ is_NDArray Qnil = false /\
  present [(Sym "a", NDArray 10); (Sym "b", Str "x")] (Sym "b") /\
  get_ndarray_inputs "args" (Integer 3) [Sym "a"; Sym "b"] false =
    Raise (Exc rb_eTypeError only_accept_Array []) /\
  get_ndarray_inputs "args" (Ary [NDArray 10; Qnil]) [Sym "a"; Sym "b"] false =
    Raise (Exc rb_eTypeError only_accept_Array []) /\
  get_ndarray_inputs "args"
    (Hsh [(Sym "a", NDArray 10); (Sym "b", Str "x")])
    [Sym "a"; Sym "b"] false =
    Raise (Exc rb_eTypeError only_accept_array []).
Proof.
  pose proof (non_tensor_input_rejected "args" [Sym "a"; Sym "b"] false)
    as [H1 [H2 [H3 _]]].
  split; [right; left; reflexivity|]. split; [reflexivity|].
  split; [reflexivity|]. split; [|split].
  - apply H1; intros l; discriminate.
  - refine (proj1 (proj2 (H2 [NDArray 10; Qnil] Qnil _ eq_refl)) eq_refl).
    right; left; reflexivity.
  - refine (proj2 (H3 [(Sym "a", NDArray 10); (Sym "b", Str "x")]
                     [Sym "a"] (Sym "b") [] eq_refl eq_refl eq_refl) _).
    right. repeat constructor.
Defined.

(** C8 as stated fails: the length check of line 172 and the missing-key
    error of line 205 come before the type check of a later element. *)
Lemma non_tensor_behind_other_error :
  In Qnil [Qnil; Qnil] /\ is_NDArray Qnil = false /\
  get_ndarray_inputs "args" (Ary [Qnil; Qnil]) [Sym "a"] false =
    Raise (length_mismatch "args") /\
  present [(Sym "b", Integer 1)] (Sym "b") /\
  is_NDArray (rb_hash_lookup2 [(Sym "b", Integer 1)] (Sym "b") Qundef)
    = false /\
  get_ndarray_inputs "args" (Hsh [(Sym "b", Integer 1)])
    [Sym "a"; Sym "b"] false =
    Raise (key_missing (Sym "a") "args") /\
  exc_class (length_mismatch "args") <> rb_eTypeError /\
  exc_class (key_missing (Sym "a") "args") <> rb_eTypeError.
Proof.
  split; [left; reflexivity|].
  repeat (split; [reflexivity|]).
  split; discriminate.
Qed.

(** ** The bind operation *)

Ltac abort_case :=
  apply bind_aborts;
  [ reflexivity | reflexivity
  | let R := fresh in
    intros ? ? ? ? ? ? ? R; destruct R;
    repeat match goal with
    | H1 : ?t = _, H2 : ?t = _ |- _ =>
        rewrite H1 in H2; inversion H2; subst; clear H2
    end; congruence ].

(** [symbol_bind] ends in one of the three ways of [bind_run]. *)
Lemma symbol_bind_run engine gmap obj ctx args kw :
  bind_run engine gmap obj ctx args kw
    (symbol_bind engine gmap obj ctx args kw).
Proof.
  unfold symbol_bind, symbol_list_arguments, symbol_list_auxiliary_states,
    CHECK_CALL, mxnet_executor_new, lift, ret.
  fold (group2ctx_of kw).
  destruct (check_context ctx) as [[]|e] eqn:Hctx; cbn -[to_mx_uint];
    [|abort_case].
  destruct (mxnet_get_handle obj) as [h|e] eqn:Hobj; cbn -[to_mx_uint];
    [|abort_case].
  destruct (MXSymbolListArguments engine h) as [msg|names] eqn:Hnames;
    cbn -[to_mx_uint]; [abort_case|].
  destruct (get_ndarray_inputs "args" args (map Sym names) false)
    as [[a ah]|e] eqn:Hargs; cbn -[to_mx_uint]; [|abort_case].
  destruct (args_grad_inputs (kw_args_grad kw) a (map Sym names))
    as [[g gh]|e] eqn:Hgrad; cbn -[to_mx_uint]; [|abort_case].
  destruct (MXSymbolListAuxiliaryStates engine h) as [msg|aux] eqn:Haux;
    cbn -[to_mx_uint]; [abort_case|].
  destruct (aux_states_inputs (kw_aux_states kw) (map Sym aux))
    as [[x xh]|e] eqn:Hauxs; cbn -[to_mx_uint]; [|abort_case].
  destruct (grad_req_codes gmap (normalize_grad_req (kw_grad_req kw))
              (map Sym names)) as [reqs|e] eqn:Hreq; cbn -[to_mx_uint];
    [|abort_case].
  destruct (group2ctx_arrays (group2ctx_of kw)) as [cm|e] eqn:Hcm;
    cbn -[to_mx_uint]; [|abort_case].
  destruct (shared_exec_handle (kw_shared_exec kw)) as [sh|e] eqn:Hsh;
    cbn -[to_mx_uint]; [|abort_case].
  destruct (mxnet_context_get_device_type_id ctx) as [t|e] eqn:Ht;
    cbn -[to_mx_uint]; [|abort_case].
  destruct (mxnet_context_get_device_id ctx) as [i|e] eqn:Hi;
    cbn -[to_mx_uint]; [|abort_case].
  fold (bind_call_of h a ah gh reqs cm x xh sh t i).
  assert (HR : resolved engine gmap obj ctx args kw h names aux a g x
                 (bind_call_of h a ah gh reqs cm x xh sh t i))
    by (econstructor; eauto).
  destruct (MXExecutorBindEX engine (bind_call_of h a ah gh reqs cm x xh sh t i))
    as [msg|eh] eqn:Hcall; cbn -[to_mx_uint].
  - eapply bind_native_error; eauto.
  - eapply bind_returns; eauto.
Qed.

Lemma symbol_list_arguments_outcome engine obj h names names' :
  mxnet_get_handle obj = Ok h ->
  MXSymbolListArguments engine h = inr names ->
  outcome (symbol_list_arguments engine obj) = Ok names' ->
  names' = map Sym names.
Proof.
  unfold symbol_list_arguments, CHECK_CALL, lift, ret.
  intros H1 H2. rewrite H1. cbn. rewrite H2. cbn. congruence.
Qed.

Lemma symbol_list_auxiliary_states_outcome engine obj h aux aux' :
  mxnet_get_handle obj = Ok h ->
  MXSymbolListAuxiliaryStates engine h = inr aux ->
  outcome (symbol_list_auxiliary_states engine obj) = Ok aux' ->
  aux' = map Sym aux.
Proof.
  unfold symbol_list_auxiliary_states, CHECK_CALL, lift, ret.
  intros H1 H2. rewrite H1. cbn. rewrite H2. cbn. congruence.
Qed.

(** Whether the gradient buffers resolve does not depend on the resolved
    arguments, which only give the size of the default buffer. *)
Lemma args_grad_inputs_raises args_grad a a' names :
  raises (args_grad_inputs args_grad a names) ->
  raises (args_grad_inputs args_grad a' names).
Proof.
  unfold args_grad_inputs.
  destruct (NIL_P (if is_undef args_grad then Qnil else args_grad));
    [intros [e He]; discriminate | auto].
Qed.

Lemma resolution_step_fails_not_resolved engine gmap obj ctx args kw
    h names aux a g x c :
  resolution_step_fails engine gmap obj ctx args kw ->
  ~ resolved engine gmap obj ctx args kw h names aux a g x c.
Proof.
  intros HF HR. destruct HR as [ah gh xh reqs cm sh t i
    Hctx Hobj Hnames Hargs Hgrad Haux Hauxs Hreq Hcm Hsh Ht Hi Hc].
  destruct HF as [[e He] | ns Hns [e He] | ns a0 Hns Hr | ns Hns [e He]
                 | ns Hns [e He] | [e He]].
  - congruence.
  - rewrite (symbol_list_arguments_outcome _ _ Hobj Hnames Hns) in He.
    congruence.
  - rewrite (symbol_list_arguments_outcome _ _ Hobj Hnames Hns) in Hr.
    destruct (@args_grad_inputs_raises _ _ a _ Hr) as [e He]. congruence.
  - rewrite (symbol_list_auxiliary_states_outcome _ _ Hobj Haux Hns) in He.
    congruence.
  - rewrite (symbol_list_arguments_outcome _ _ Hobj Hnames Hns) in He.
    congruence.
  - unfold group2ctx_of in Hcm. congruence.
Qed.

(** C1. For every invocation of bind: if a resolution step fails (the
    device-context check, input resolution for args, args_grad or
    aux_states, gradient-requirement resolution, device-group resolution),
    bind raises, [MXExecutorBindEX] is not called and no execution object
    is constructed; and bind either returns an execution object, built
    from the handle the native call returned, or raises with no execution
    object constructed. *)
Theorem bind_all_or_nothing engine grad_req_map obj ctx args kw :
  (resolution_step_fails engine grad_req_map obj ctx args kw ->
   raises (outcome (symbol_bind engine grad_req_map obj ctx args kw)) /\
   no_bind_call (trace (symbol_bind engine grad_req_map obj ctx args kw)) /\
   no_executor (trace (symbol_bind engine grad_req_map obj ctx args kw))) /\
  ((exists eh a g x c,
      outcome (symbol_bind engine grad_req_map obj ctx args kw) =
        Ok (Executor eh obj ctx (normalize_grad_req (kw_grad_req kw))
              (group2ctx_of kw) a g x) /\
      MXExecutorBindEX engine c = inr eh /\
      In (CallExecutorBindEX c)
        (trace (symbol_bind engine grad_req_map obj ctx args kw)) /\
      In (NewExecutor eh)
        (trace (symbol_bind engine grad_req_map obj ctx args kw))) \/
   (raises (outcome (symbol_bind engine grad_req_map obj ctx args kw)) /\
    no_executor (trace (symbol_bind engine grad_req_map obj ctx args kw)))).
Proof.
  pose proof (symbol_bind_run engine grad_req_map obj ctx args kw) as Hrun.
  split.
  - intro HF. inversion Hrun as [h names aux a g x c eh HR Hcall Heq
                                | h names aux a g x c msg HR Hcall Heq
                                | t e Hnb Hne Hnr Heq].
    + destruct (resolution_step_fails_not_resolved HF HR).
    + destruct (resolution_step_fails_not_resolved HF HR).
    + simpl. split; [eexists; reflexivity | split; assumption].
  - inversion Hrun as [h names aux a g x c eh HR Hcall Heq
                      | h names aux a g x c msg HR Hcall Heq
                      | t e Hnb Hne Hnr Heq].
    + left. exists eh, a, g, x, c. simpl.
      repeat split; auto; simpl; tauto.
    + right. simpl. split; [eexists; reflexivity | reflexivity].
    + right. simpl. split; [eexists; reflexivity | assumption].
Qed.

Lemma bind_all_or_nothing_witness :
  resolution_step_fails Sample.engine Sample.grad_req_map
    (MXSymbol 1) (Context 1 0) (Ary [NDArray 10]) Sample.no_kwargs /\
  raises (outcome (symbol_bind Sample.engine Sample.grad_req_map
                     (MXSymbol 1) (Context 1 0) (Ary [NDArray 10])
                     Sample.no_kwargs)) /\
  no_bind_call (trace (symbol_bind Sample.engine Sample.grad_req_map
                         (MXSymbol 1) (Context 1 0) (Ary [NDArray 10])
                         Sample.no_kwargs)).
Proof.
  assert (HF : resolution_step_fails Sample.engine Sample.grad_req_map
                 (MXSymbol 1) (Context 1 0) (Ary [NDArray 10])
                 Sample.no_kwargs).
  { apply args_fails with (names := [Sym "a"; Sym "b"]); [reflexivity|].
    eexists; reflexivity. }
  split; [exact HF|].
  destruct (proj1 (bind_all_or_nothing Sample.engine Sample.grad_req_map
                     (MXSymbol 1) (Context 1 0) (Ary [NDArray 10])
                     Sample.no_kwargs) HF) as [H1 [H2 _]].
  split; assumption.
Defined.

(** *** Auxiliary states *)

Lemma aux_states_inputs_omitted aux_states aux :
  aux_states = Qundef \/ aux_states = Qnil ->
  aux <> [] ->
  aux_states_inputs aux_states aux =
    get_ndarray_inputs "aux_states" (Ary []) aux false /\
  aux_states_inputs aux_states aux = Raise (length_mismatch "aux_states").
Proof.
  intros [-> | ->] Haux; (split; [reflexivity|]);
    destruct aux; try contradiction; reflexivity.
Qed.

(** C9, as amended. An omitted or nil aux_states keyword is replaced by an
    empty sequence and resolved against the auxiliary-state list with
    missing values disallowed. For every graph whose auxiliary-state list
    is not empty, bind without aux_states always raises, without calling
    [MXExecutorBindEX]; when the steps before the resolution of the
    auxiliary states return (the device-context check, the listing of the
    arguments, the resolution of args and args_grad), the exception is the
    argument-count error whose message carries "aux_states". *)
Theorem bind_without_aux_states engine grad_req_map obj ctx args kw h aux :
  kw_aux_states kw = Qundef \/ kw_aux_states kw = Qnil ->
  mxnet_get_handle obj = Ok h ->
  MXSymbolListAuxiliaryStates engine h = inr aux ->
  aux <> [] ->
  aux_states_inputs (kw_aux_states kw) (map Sym aux) =
    get_ndarray_inputs "aux_states" (Ary []) (map Sym aux) false /\
  aux_states_inputs (kw_aux_states kw) (map Sym aux) =
    Raise (length_mismatch "aux_states") /\
  raises (outcome (symbol_bind engine grad_req_map obj ctx args kw)) /\
  no_bind_call (trace (symbol_bind engine grad_req_map obj ctx args kw)) /\
  no_executor (trace (symbol_bind engine grad_req_map obj ctx args kw)) /\
  (forall names a ah g gh,
     check_context ctx = Ok tt ->
     MXSymbolListArguments engine h = inr names ->
     get_ndarray_inputs "args" args (map Sym names) false = Ok (a, ah) ->
     args_grad_inputs (kw_args_grad kw) a (map Sym names) = Ok (g, gh) ->
     symbol_bind engine grad_req_map obj ctx args kw =
       ([CallListArguments h; CallListAuxiliaryStates h],
        Raise (length_mismatch "aux_states"))).
Proof.
  intros Hkw Hobj Haux Hne.
  assert (Hne' : map Sym aux <> []) by (destruct aux; [contradiction | discriminate]).
  destruct (aux_states_inputs_omitted Hkw Hne') as [H1 H2].
  split; [exact H1|]. split; [exact H2|].
  assert (HF : resolution_step_fails engine grad_req_map obj ctx args kw).
  { apply aux_states_fails with (names := map Sym aux).
    - unfold symbol_list_auxiliary_states, CHECK_CALL, lift, ret.
      rewrite Hobj. cbn. rewrite Haux. reflexivity.
    - eexists; exact H2. }
  pose proof (symbol_bind_run engine grad_req_map obj ctx args kw) as Hrun.
  assert (Habort : raises (outcome (symbol_bind engine grad_req_map obj ctx args kw)) /\
    no_bind_call (trace (symbol_bind engine grad_req_map obj ctx args kw)) /\
    no_executor (trace (symbol_bind engine grad_req_map obj ctx args kw))).
  { inversion Hrun as [h0 names0 aux0 a g x c eh HR Hcall Heq
                      | h0 names0 aux0 a g x c msg HR Hcall Heq
                      | t e Hnb Hnx Hnr Heq].
    - destruct (resolution_step_fails_not_resolved HF HR).
    - destruct (resolution_step_fails_not_resolved HF HR).
    - simpl. split; [eexists; reflexivity | split; assumption]. }
  destruct Habort as [Hr [Hb Hx]].
  repeat (split; [assumption|]).
  intros names a ah g gh Hctx Hnames Hargs Hgrad.
  unfold symbol_bind, symbol_list_arguments, symbol_list_auxiliary_states,
    CHECK_CALL, lift, ret.
  rewrite Hctx. cbn. rewrite Hobj. cbn. rewrite Hnames. cbn.
  rewrite Hargs. cbn. rewrite Hgrad. cbn. rewrite Haux. cbn.
  rewrite H2. reflexivity.
Qed.

Lemma bind_without_aux_states_witness :
  symbol_bind Sample.engine Sample.grad_req_map (MXSymbol 2) (Context 1 0)
    (Ary [NDArray 10; NDArray 11]) Sample.no_kwargs =
  ([CallListArguments 2; CallListAuxiliaryStates 2],
   Raise (length_mismatch "aux_states")).
Proof.
  refine (proj2 (proj2 (proj2 (proj2 (proj2
    (@bind_without_aux_states Sample.engine Sample.grad_req_map (MXSymbol 2)
       (Context 1 0) (Ary [NDArray 10; NDArray 11]) Sample.no_kwargs
       2 ["moving_mean"%string] (or_introl eq_refl) eq_refl eq_refl _)))))
    ["a"%string; "b"%string] (Ary [NDArray 10; NDArray 11])
    [Some 10; Some 11] Qnil [None; None] eq_refl eq_refl eq_refl eq_refl).
  discriminate.
Defined.

(** C9 as stated fails: on a graph with an auxiliary state, bind without
    aux_states and with a device context of the wrong type raises the type
    error of line 284; with an args sequence of the wrong length it raises
    the argument-count error for "args". *)
Lemma bind_without_aux_states_other_error :
  MXSymbolListAuxiliaryStates Sample.engine 2 = inr ["moving_mean"%string] /\
  kw_aux_states Sample.no_kwargs = Qundef /\
  symbol_bind Sample.engine Sample.grad_req_map (MXSymbol 2) Qnil
    (Ary [NDArray 10; NDArray 11]) Sample.no_kwargs =
    ([], Raise (Exc rb_eTypeError "Context type error" [])) /\
  symbol_bind Sample.engine Sample.grad_req_map (MXSymbol 2) (Context 1 0)
    (Ary [NDArray 10]) Sample.no_kwargs =
    ([CallListArguments 2], Raise (length_mismatch "args")) /\
  Exc rb_eTypeError "Context type error" [] <> length_mismatch "aux_states" /\
  length_mismatch "args" <> length_mismatch "aux_states".
Proof.
  repeat (split; [reflexivity|]). split; discriminate.
Qed.

(** ** Gradient requirements *)

Lemma each_Ok A B (f : A -> result B) l ys :
  each f l = Ok ys <-> Forall2 (fun x y => f x = Ok y) l ys.
Proof.
  revert ys. induction l as [|x l IH]; intros ys; simpl.
  - split.
    + intro H. injection H as <-. constructor.
    + intro H. inversion H. reflexivity.
  - split.
    + destruct (f x) as [y|e] eqn:Ex; simpl; [|discriminate].
      destruct (each f l) as [ys'|e] eqn:El; simpl; [|discriminate].
      intro H. injection H as <-. constructor; [assumption|].
      now apply IH.
    + intro H. inversion H as [|? y ? ys' Hx Hl]; subst.
      rewrite Hx. simpl. apply IH in Hl. rewrite Hl. reflexivity.
Qed.

Lemma each_Raise A B (f : A -> result B) l e :
  each f l = Raise e -> exists x, In x l /\ f x = Raise e.
Proof.
  induction l as [|x l IH]; simpl; [discriminate|].
  destruct (f x) as [y|e'] eqn:Ex; simpl.
  - destruct (each f l) as [ys|e'] eqn:El; simpl; [discriminate|].
    intro H. injection H as <-. destruct (IH eq_refl) as [x' [Hin Hx']].
    exists x'. split; [now right | assumption].
  - intro H. injection H as <-. exists x. split; [now left | assumption].
Qed.

Lemma NUM2UINT_Raise v e :
  NUM2UINT v = Raise e ->
  exc_class e = rb_eTypeError \/ exc_class e = rb_eRangeError.
Proof.
  destruct v; simpl; try (intro H; injection H as <-; now left).
  destruct (z <? INT_MIN); [intro H; injection H as <-; now right|].
  destruct (UINT_MAX <? z); [intro H; injection H as <-; now right|].
  discriminate.
Qed.

Lemma get_ndarray_inputs_length arg_key args names allow_missing a ah :
  get_ndarray_inputs arg_key args names allow_missing = Ok (a, ah) ->
  RARRAY_LEN a = List.length names /\ List.length ah = List.length names.
Proof.
  destruct args; try discriminate.
  - rewrite get_ndarray_inputs_Ary.
    destruct (Nat.eqb_spec (List.length elts) (List.length names)) as [E|E];
      simpl; [|discriminate].
    destruct (forallb is_NDArray elts); [|discriminate].
    intro H. injection H as <- <-. simpl. now rewrite length_map.
  - unfold get_ndarray_inputs.
    assert (HL : forall r,
               hash_inputs arg_key entries names allow_missing = Ok r ->
               List.length (fst r) = List.length names /\
               List.length (snd r) = List.length names).
    { induction names as [|n names IH]; intros r.
      - simpl. intro H. injection H as <-. now split.
      - rewrite hash_inputs_cons. cbv zeta.
        destruct (hash_inputs arg_key entries names allow_missing)
          as [r'|e'] eqn:Er.
        + destruct (IH r' eq_refl) as [L1 L2].
          destruct (negb (is_undef (rb_hash_lookup2 entries n Qundef))).
          * destruct (negb (is_NDArray (rb_hash_lookup2 entries n Qundef)));
              [discriminate|].
            destruct (mxnet_get_handle (rb_hash_lookup2 entries n Qundef));
              simpl; [|discriminate].
            intro H. injection H as <-. simpl. now rewrite L1, L2.
          * destruct allow_missing; simpl; [|discriminate].
            intro H. injection H as <-. simpl. now rewrite L1, L2.
        + destruct (negb (is_undef (rb_hash_lookup2 entries n Qundef))).
          * destruct (negb (is_NDArray (rb_hash_lookup2 entries n Qundef)));
              [discriminate|].
            destruct (mxnet_get_handle (rb_hash_lookup2 entries n Qundef));
              discriminate.
          * destruct allow_missing; discriminate. }
    destruct (hash_inputs arg_key entries names allow_missing) as [r|e] eqn:Er;
      simpl; [|discriminate].
    intro H. injection H as <- <-. simpl. now apply HL.
Qed.

(** The native call is in the trace only when every step before it has
    returned. *)
Lemma bind_call_resolved engine gmap obj ctx args kw c :
  In (CallExecutorBindEX c) (trace (symbol_bind engine gmap obj ctx args kw)) ->
  exists h names aux a g x,
    resolved engine gmap obj ctx args kw h names aux a g x c.
Proof.
  pose proof (symbol_bind_run engine gmap obj ctx args kw) as Hrun.
  inversion Hrun as [h names aux a g x c0 eh HR Hcall Heq
                    | h names aux a g x c0 msg HR Hcall Heq
                    | t e Hnb Hnx Hnr Heq]; simpl; intro Hin.
  - destruct Hin as [H|[H|[H|[H|[]]]]]; try discriminate.
    injection H as <-. now exists h, names, aux, a, g, x.
  - destruct Hin as [H|[H|[H|[]]]]; try discriminate.
    injection H as <-. now exists h, names, aux, a, g, x.
  - unfold no_bind_call in Hnb. rewrite forallb_forall in Hnb.
    specialize (Hnb _ Hin). discriminate.
Qed.

(** C7. For every grad_req supplied as an ordered sequence of L elements,
    gradient-requirement resolution converts one code per position of the
    supplied sequence and never compares L with the number N of arguments:
    its result is the same for every argument list, a result has exactly L
    codes, an exception comes from the conversion of an element (a type or
    range error) and is never a length-mismatch error, and a sequence of
    recognized labels gives the L codes of its labels. The native bind
    call is then passed N as the number of arguments together with the
    array of L codes, so that with L < N it reads past the end of the
    array. *)
Theorem grad_req_sequence_unchecked engine grad_req_map items :
  (forall names names',
     grad_req_codes grad_req_map (Ary items) names =
     grad_req_codes grad_req_map (Ary items) names') /\
  (forall names codes,
     grad_req_codes grad_req_map (Ary items) names = Ok codes ->
     List.length codes = List.length items /\
     Forall2 (fun item c =>
                NUM2UINT (rb_hash_lookup grad_req_map item) = Ok c)
       items codes) /\
  (forall names e,
     grad_req_codes grad_req_map (Ary items) names = Raise e ->
     (exc_class e = rb_eTypeError \/ exc_class e = rb_eRangeError) /\
     e <> length_mismatch "grad_req") /\
  (forall names codes,
     Forall2 (label_code grad_req_map) items codes ->
     grad_req_codes grad_req_map (Ary items) names = Ok codes /\
     List.length codes = List.length items) /\
  (forall obj ctx args kw c,
     kw_grad_req kw = Ary items ->
     In (CallExecutorBindEX c)
       (trace (symbol_bind engine grad_req_map obj ctx args kw)) ->
     exists h names,
       mxnet_get_handle obj = Ok h /\
       MXSymbolListArguments engine h = inr names /\
       len c = to_mx_uint (Z.of_nat (List.length names)) /\
       List.length (grad_req_type c) = List.length items /\
       (Z.of_nat (List.length names) < 2 ^ 32 ->
        (List.length items < List.length names)%nat ->
        Z.of_nat (List.length (grad_req_type c)) < len c)).
Proof.
  split; [reflexivity|]. split; [|split; [|split]].
  - intros names codes H. simpl in H. apply each_Ok in H.
    split; [symmetry; eapply Forall2_length; eassumption | assumption].
  - intros names e H. simpl in H. apply each_Raise in H.
    destruct H as [item [_ H]]. apply NUM2UINT_Raise in H.
    split; [assumption|]. intros ->. simpl in H. destruct H; discriminate.
  - intros names codes H. split.
    + simpl. apply each_Ok. eapply Forall2_impl; [|eassumption].
      intros item c [_ Hc]. exact Hc.
    + symmetry. eapply Forall2_length; eassumption.
  - intros obj ctx args kw c Hkw Hin.
    destruct (bind_call_resolved _ _ _ _ _ _ _ Hin)
      as [h [names [aux [a [g [x HR]]]]]].
    destruct HR as [ah gh xh reqs cm sh t i
      Hctx Hobj Hnames Hargs Hgrad Haux Hauxs Hreq Hcm Hsh Ht Hi Hc].
    exists h, names. split; [assumption|]. split; [assumption|].
    destruct (get_ndarray_inputs_length _ _ _ _ Hargs) as [La _].
    rewrite length_map in La.
    rewrite Hkw in Hreq. simpl in Hreq. apply each_Ok in Hreq.
    apply Forall2_length in Hreq.
    subst c. simpl. rewrite La. split; [reflexivity|].
    split; [now symmetry|].
    intros Hbound Hlt. unfold to_mx_uint.
    rewrite Z.mod_small by lia. lia.
Qed.

Lemma grad_req_sequence_unchecked_witness :
  Forall2 (label_code Sample.grad_req_map) [Sym "add"] [3] /\
  grad_req_codes Sample.grad_req_map (Ary [Sym "add"]) [Sym "a"; Sym "b"] =
    Ok [3] /\
  exists c,
    In (CallExecutorBindEX c)
      (trace (symbol_bind Sample.engine Sample.grad_req_map (MXSymbol 1)
                (Context 1 0) (Ary [NDArray 10; NDArray 11])
                (Sample.with_grad_req (Ary [Sym "add"])))) /\
    len c = 2 /\ grad_req_type c = [3] /\
    Z.of_nat (List.length (grad_req_type c)) < len c.
Proof.
  pose proof (grad_req_sequence_unchecked Sample.engine Sample.grad_req_map
                [Sym "add"]) as [_ [_ [_ [H4 H5]]]].
  assert (HL : Forall2 (label_code Sample.grad_req_map) [Sym "add"] [3]).
  { repeat constructor. }
  split; [exact HL|].
  split; [exact (proj1 (H4 [Sym "a"; Sym "b"] [3] HL))|].
  exists (bind_call_of 1 (Ary [NDArray 10; NDArray 11]) [Some 10; Some 11]
            [None; None] [3]
            {| num_ctx_map_keys := 0; ctx_map_keys := None;
               ctx_map_dev_types := None; ctx_map_dev_ids := None |}
            (Ary []) [] None 1 0).
  assert (Hin : In (CallExecutorBindEX
                      (bind_call_of 1 (Ary [NDArray 10; NDArray 11])
                         [Some 10; Some 11] [None; None] [3]
                         {| num_ctx_map_keys := 0; ctx_map_keys := None;
                            ctx_map_dev_types := None;
                            ctx_map_dev_ids := None |}
                         (Ary []) [] None 1 0))
                (trace (symbol_bind Sample.engine Sample.grad_req_map
                          (MXSymbol 1) (Context 1 0)
                          (Ary [NDArray 10; NDArray 11])
                          (Sample.with_grad_req (Ary [Sym "add"])))))
    by (right; right; left; reflexivity).
  destruct (H5 (MXSymbol 1) (Context 1 0) (Ary [NDArray 10; NDArray 11])
              (Sample.with_grad_req (Ary [Sym "add"])) _ eq_refl Hin) as [h [names [_ [Hn [_ [_ Hoob]]]]]].
  simpl in Hn. injection Hn as <-.
  split; [exact Hin|]. split; [reflexivity|]. split; [reflexivity|].
  apply Hoob; [reflexivity | repeat constructor].
Defined.

Lemma label_code_found grad_req_map label c :
  label_code grad_req_map label c ->
  is_undef (rb_hash_lookup2 grad_req_map label Qundef) = false.
Proof.
  intros [Hk Hc]. unfold rb_hash_lookup in Hc.
  rewrite (lookup2_present _ _ Qundef Qnil Hk).
  destruct (rb_hash_lookup2 grad_req_map label Qnil); try reflexivity.
  discriminate.
Qed.

Lemma grad_req_codes_Sym grad_req_map label names :
  (forall c,
     label_code grad_req_map (Sym label) c ->
     grad_req_codes grad_req_map (Sym label) names =
       Ok (repeat c (List.length names))) /\
  (has_key grad_req_map (Sym label) = false ->
   grad_req_codes grad_req_map (Sym label) names =
     Raise (invalid_grad_req grad_req_map)).
Proof.
  split.
  - intros c Hl. unfold grad_req_codes.
    rewrite (label_code_found Hl). destruct Hl as [_ ->]. reflexivity.
  - intro Hk. unfold grad_req_codes.
    rewrite (lookup2_absent _ _ _ Hk). reflexivity.
Qed.

(** C5. For every argument list of length N: with grad_req absent the
    resolution yields N codes, all the code of "write"; with grad_req a
    single label, given as a Symbol or as a String, a label that is not a
    key of the table fails with the argument error whose message carries
    the table, and the code of a recognized label is put at all N
    positions. *)
Theorem grad_req_scalar grad_req_map names :
  (forall c,
     label_code grad_req_map (Sym "write") c ->
     grad_req_codes grad_req_map (normalize_grad_req Qundef) names =
       Ok (repeat c (List.length names))) /\
  (forall label c,
     label_code grad_req_map (Sym label) c ->
     grad_req_codes grad_req_map (normalize_grad_req (Sym label)) names =
       Ok (repeat c (List.length names)) /\
     grad_req_codes grad_req_map (normalize_grad_req (Str label)) names =
       Ok (repeat c (List.length names)) /\
     List.length (repeat c (List.length names)) = List.length names /\
     Forall (eq c) (repeat c (List.length names))) /\
  (forall label,
     has_key grad_req_map (Sym label) = false ->
     grad_req_codes grad_req_map (normalize_grad_req (Sym label)) names =
       Raise (invalid_grad_req grad_req_map) /\
     grad_req_codes grad_req_map (normalize_grad_req (Str label)) names =
       Raise (invalid_grad_req grad_req_map)).
Proof.
  split; [|split].
  - intros c Hl. exact (proj1 (grad_req_codes_Sym grad_req_map "write" names) c Hl).
  - intros label c Hl.
    pose proof (proj1 (grad_req_codes_Sym grad_req_map label names) c Hl) as H.
    split; [exact H|]. split; [exact H|].
    split; [apply repeat_length|].
    apply Forall_forall. intros y Hy. symmetry. eapply repeat_spec; eassumption.
  - intros label Hk.
    pose proof (proj2 (grad_req_codes_Sym grad_req_map label names) Hk) as H.
    split; exact H.
Qed.

Lemma grad_req_scalar_witness :
  label_code Sample.grad_req_map (Sym "write") 1 /\
  label_code Sample.grad_req_map (Sym "add") 3 /\
  has_key Sample.grad_req_map (Sym "bogus") = false /\
  grad_req_codes Sample.grad_req_map (normalize_grad_req Qundef)
    [Sym "a"; Sym "b"] = Ok [1; 1] /\
  grad_req_codes Sample.grad_req_map (normalize_grad_req (Str "add"))
    [Sym "a"; Sym "b"] = Ok [3; 3] /\
  grad_req_codes Sample.grad_req_map (normalize_grad_req (Sym "bogus"))
    [Sym "a"; Sym "b"] = Raise (invalid_grad_req Sample.grad_req_map).
Proof.
  pose proof (grad_req_scalar Sample.grad_req_map [Sym "a"; Sym "b"])
    as [H1 [H2 H3]].
  assert (Hw : label_code Sample.grad_req_map (Sym "write") 1)
    by (split; reflexivity).
  assert (Ha : label_code Sample.grad_req_map (Sym "add") 3)
    by (split; reflexivity).
  split; [exact Hw|]. split; [exact Ha|]. split; [reflexivity|].
  split; [exact (H1 1 Hw)|].
  split; [exact (proj1 (proj2 (H2 "add"%string 3 Ha)))|].
  exact (proj1 (H3 "bogus"%string eq_refl)).
Defined.

(** C10. A scalar grad_req given as a String is made the Symbol of the
    same text before the dispatch on its form, so that the String is
    resolved by the Symbol branch with that label: for every label text,
    the String form and the Symbol form give the same code array or the
    same exception (the invalid-label error included), bind as a whole
    has the same trace and the same outcome, and an execution object that
    bind returns records the Symbol. *)
Theorem grad_req_string_interned engine grad_req_map obj ctx args kw label :
  rb_str_intern (Str label) = Sym label /\
  normalize_grad_req (Str label) = Sym label /\
  normalize_grad_req (Sym label) = Sym label /\
  (forall names,
     grad_req_codes grad_req_map (normalize_grad_req (Str label)) names =
     grad_req_codes grad_req_map (Sym label) names /\
     grad_req_codes grad_req_map (normalize_grad_req (Sym label)) names =
     grad_req_codes grad_req_map (Sym label) names) /\
  (forall names,
     has_key grad_req_map (Sym label) = false ->
     grad_req_codes grad_req_map (normalize_grad_req (Str label)) names =
       Raise (invalid_grad_req grad_req_map)) /\
  (forall names c,
     label_code grad_req_map (Sym label) c ->
     grad_req_codes grad_req_map (normalize_grad_req (Str label)) names =
       Ok (repeat c (List.length names))) /\
  symbol_bind engine grad_req_map obj ctx args (set_grad_req kw (Str label)) =
  symbol_bind engine grad_req_map obj ctx args (set_grad_req kw (Sym label)) /\
  (forall eh s cx gr m a g x,
     outcome (symbol_bind engine grad_req_map obj ctx args
                (set_grad_req kw (Str label))) =
       Ok (Executor eh s cx gr m a g x) ->
     gr = Sym label).
Proof.
  split; [reflexivity|]. split; [reflexivity|]. split; [reflexivity|].
  split; [intros names; split; reflexivity|].
  split.
  { intros names Hk.
    exact (proj2 (grad_req_codes_Sym grad_req_map label names) Hk). }
  split.
  { intros names c Hl.
    exact (proj1 (grad_req_codes_Sym grad_req_map label names) c Hl). }
  split; [reflexivity|].
  intros eh s cx gr m a g x Hout.
  pose proof (symbol_bind_run engine grad_req_map obj ctx args
                (set_grad_req kw (Str label))) as Hrun.
  inversion Hrun as [h ns aux a0 g0 x0 c eh0 HR Hcall Heq
                    | h ns aux a0 g0 x0 c msg HR Hcall Heq
                    | t e Hnb Hnx Hnr Heq];
    rewrite <- Heq in Hout; simpl in Hout; try discriminate.
  injection Hout as _ _ _ <- _ _ _ _. reflexivity.
Qed.

Lemma grad_req_string_interned_witness :
  label_code Sample.grad_req_map (Sym "add") 3 /\
  has_key Sample.grad_req_map (Sym "bogus") = false /\
  grad_req_codes Sample.grad_req_map (normalize_grad_req (Str "add"))
    [Sym "a"; Sym "b"] = Ok [3; 3] /\
  grad_req_codes Sample.grad_req_map (normalize_grad_req (Str "bogus"))
    [Sym "a"; Sym "b"] = Raise (invalid_grad_req Sample.grad_req_map) /\
  outcome (symbol_bind Sample.engine Sample.grad_req_map (MXSymbol 1)
             (Context 1 0) (Ary [NDArray 10; NDArray 11])
             (set_grad_req Sample.no_kwargs (Str "add"))) =
    Ok (Executor 99 (MXSymbol 1) (Context 1 0) (Sym "add") Qnil
          (Ary [NDArray 10; NDArray 11]) Qnil (Ary [])).
Proof.
  assert (Ha : label_code Sample.grad_req_map (Sym "add") 3)
    by (split; reflexivity).
  pose proof (grad_req_string_interned Sample.engine Sample.grad_req_map
                (MXSymbol 1) (Context 1 0) (Ary [NDArray 10; NDArray 11])
                Sample.no_kwargs "add") as [_ [_ [_ [_ [_ [Hok _]]]]]].
  pose proof (grad_req_string_interned Sample.engine Sample.grad_req_map
                (MXSymbol 1) (Context 1 0) (Ary [NDArray 10; NDArray 11])
                Sample.no_kwargs "bogus") as [_ [_ [_ [_ [Hbad _]]]]].
  split; [exact Ha|]. split; [reflexivity|].
  split; [exact (Hok [Sym "a"; Sym "b"] 3 Ha)|].
  split; [exact (Hbad [Sym "a"; Sym "b"] eq_refl)|].
  reflexivity.
Defined.

(** *** The mapping form *)

Lemma Forall2_nth_error A B (R : A -> B -> Prop) l l' i x :
  Forall2 R l l' -> nth_error l i = Some x ->
  exists y, nth_error l' i = Some y /\ R x y.
Proof.
  intro H. revert i. induction H as [|a b l l' Hab _ IH]; intros [|i]; simpl;
    try discriminate.
  - intro E. injection E as ->. now exists b.
  - apply IH.
Qed.

(** A name that is not a key of a grad_req mapping gets the code 0: the
    default of the lookup of line 352. *)
Lemma grad_req_mapping_default grad_req_map entries names :
  (forall name,
     has_key entries name = false ->
     NUM2UINT (rb_hash_lookup2 entries name (Integer 0)) = Ok 0) /\
  (forall codes,
     grad_req_codes grad_req_map (Hsh entries) names = Ok codes ->
     List.length codes = List.length names /\
     forall i name,
       nth_error names i = Some name ->
       has_key entries name = false ->
       nth_error codes i = Some 0).
Proof.
  split.
  - intros name Hk. now rewrite (lookup2_absent _ _ _ Hk).
  - intros codes H. simpl in H. apply each_Ok in H. split.
    + symmetry. eapply Forall2_length; eassumption.
    + intros i name Hi Hk.
      destruct (Forall2_nth_error _ H Hi) as [c [Hc Hn]].
      rewrite (lookup2_absent _ _ _ Hk) in Hn. simpl in Hn.
      injection Hn as <-. exact Hc.
Qed.

(** The values of a grad_req mapping are converted as they are, without
    the lookup in the table that the scalar form (line 333) and the
    sequence form (line 343) make: a mapping that gives a label to a
    listed argument raises. *)
Lemma grad_req_mapping_label grad_req_map entries names name label :
  In name names ->
  rb_hash_lookup2 entries name (Integer 0) = Sym label ->
  raises (grad_req_codes grad_req_map (Hsh entries) names).
Proof.
  intros Hin Hl. simpl.
  destruct (each (fun n => NUM2UINT (rb_hash_lookup2 entries n (Integer 0)))
              names) as [codes|e] eqn:E; [|eexists; reflexivity].
  apply each_Ok in E. destruct (In_nth_error _ _ Hin) as [i Hi].
  destruct (Forall2_nth_error _ E Hi) as [c [_ Hc]].
  rewrite Hl in Hc. discriminate.
Qed.

(** C6, at a name-to-label mapping that omits an argument. With arguments
    [a] and [b] and grad_req [{a: :write}], the resolution raises the type
    error of the integer conversion of [:write], and so does bind, before
    the native call; the scalar and the sequence forms accept the same
    label. *)
Theorem grad_req_mapping_with_label_raises :
  has_key [(Sym "a", Sym "write")] (Sym "b") = false /\
  grad_req_codes Sample.grad_req_map
    (normalize_grad_req (Hsh [(Sym "a", Sym "write")])) [Sym "a"; Sym "b"] =
    Raise (Exc rb_eTypeError "no implicit conversion of %s into Integer"
             [ClassOf (Sym "write")]) /\
  symbol_bind Sample.engine Sample.grad_req_map (MXSymbol 1) (Context 1 0)
    (Ary [NDArray 10; NDArray 11])
    (Sample.with_grad_req (Hsh [(Sym "a", Sym "write")])) =
    ([CallListArguments 1; CallListAuxiliaryStates 1],
     Raise (Exc rb_eTypeError "no implicit conversion of %s into Integer"
              [ClassOf (Sym "write")])) /\
  grad_req_codes Sample.grad_req_map (normalize_grad_req (Sym "write"))
    [Sym "a"; Sym "b"] = Ok [1; 1] /\
  grad_req_codes Sample.grad_req_map
    (normalize_grad_req (Ary [Sym "write"; Sym "null"])) [Sym "a"; Sym "b"] =
    Ok [1; 0] /\
  grad_req_codes Sample.grad_req_map
    (normalize_grad_req (Hsh [(Sym "a", Integer 1)])) [Sym "a"; Sym "b"] =
    Ok [1; 0].
Proof. repeat split. Qed.

(** ** Further properties of input resolution *)

(** What the loop over the names returns: one element per name, each a
    tensor or, when missing values are allowed, nil, with the handles in
    parallel. *)
Lemma hash_inputs_shape arg_key entries names allow_missing r :
  hash_inputs arg_key entries names allow_missing = Ok r ->
  List.length (fst r) = List.length names /\
  snd r = map tensor_handle (fst r) /\
  Forall (fun v => tensor v \/ (v = Qnil /\ allow_missing = true)) (fst r).
Proof.
  revert r. induction names as [|n names IH]; intros r.
  - simpl. intro H. injection H as <-. simpl. auto.
  - rewrite hash_inputs_cons. cbv zeta.
    destruct (hash_inputs arg_key entries names allow_missing)
      as [r'|e'] eqn:Er.
    + destruct (IH r' eq_refl) as [L [P F]].
      destruct (is_undef (rb_hash_lookup2 entries n Qundef)); simpl.
      * destruct allow_missing; simpl; [|discriminate].
        intro H. injection H as <-. simpl.
        split; [now rewrite L|]. split; [now rewrite P|].
        constructor; [now right|].
        apply Forall_impl with (2 := F). tauto.
      * destruct (rb_hash_lookup2 entries n Qundef) eqn:El; simpl;
          try discriminate.
        intro H. injection H as <-. simpl.
        split; [now rewrite L|]. split; [now rewrite P|].
        constructor; [now left | assumption].
    + destruct (is_undef (rb_hash_lookup2 entries n Qundef)); simpl.
      * destruct allow_missing; discriminate.
      * destruct (is_NDArray (rb_hash_lookup2 entries n Qundef)); simpl;
          [|discriminate].
        destruct (mxnet_get_handle (rb_hash_lookup2 entries n Qundef));
          discriminate.
Qed.

Lemma tensor_handles_not_null elts :
  Forall tensor elts -> Forall (fun h => h <> None) (map tensor_handle elts).
Proof.
  intro H. apply Forall_map. apply Forall_impl with (2 := H).
  intros v Hv. destruct (tensor_inv Hv) as [h ->]. discriminate.
Qed.

Lemma get_ndarray_inputs_shape arg_key args names allow_missing a hs :
  get_ndarray_inputs arg_key args names allow_missing = Ok (a, hs) ->
  exists elts,
    a = Ary elts /\
    List.length elts = List.length names /\
    hs = map tensor_handle elts /\
    Forall (fun v => tensor v \/
                     (v = Qnil /\ allow_missing = true /\
                      exists entries, args = Hsh entries)) elts.
Proof.
  destruct args; try discriminate.
  - rewrite get_ndarray_inputs_Ary.
    destruct (Nat.eqb_spec (List.length elts) (List.length names)) as [E|E];
      simpl; [|discriminate].
    destruct (forallb is_NDArray elts) eqn:F; [|discriminate].
    intro H. injection H as <- <-. exists elts.
    repeat split; auto.
    apply forallb_tensor in F. apply Forall_impl with (2 := F). tauto.
  - unfold get_ndarray_inputs.
    destruct (hash_inputs arg_key entries names allow_missing) as [r|e] eqn:Er;
      simpl; [|discriminate].
    intro H. injection H as <- <-.
    destruct (hash_inputs_shape _ _ _ _ Er) as [L [P F]].
    exists (fst r). repeat split; auto.
    apply Forall_impl with (2 := F).
    intros v [Hv | [Hv Ha]]; [now left | right].
    repeat split; auto. now exists entries.
Qed.

(** X1. Whatever the form of the input, a resolution that returns gives an
    Array with exactly one element per listed name and a handle array
    parallel to it: the handle of each tensor, NULL at each nil. An element
    is nil only for a Hash input with missing values allowed; with missing
    values disallowed every element is a tensor and no handle is NULL. *)
Theorem resolved_inputs_shape arg_key args names allow_missing a hs :
  get_ndarray_inputs arg_key args names allow_missing = Ok (a, hs) ->
  exists elts,
    a = Ary elts /\
    List.length elts = List.length names /\
    List.length hs = List.length names /\
    hs = map tensor_handle elts /\
    Forall (fun v => tensor v \/
                     (v = Qnil /\ allow_missing = true /\
                      exists entries, args = Hsh entries)) elts /\
    (allow_missing = false ->
     Forall tensor elts /\ Forall (fun h => h <> None) hs).
Proof.
  intro H. destruct (get_ndarray_inputs_shape _ _ _ _ H) as [elts [Ha [L [P F]]]].
  exists elts. split; [assumption|]. split; [assumption|].
  split; [subst hs; now rewrite length_map|]. split; [assumption|].
  split; [assumption|].
  intro Hm. assert (FT : Forall tensor elts).
  { apply Forall_impl with (2 := F).
    intros v [Hv | [_ [Hc _]]]; [assumption | congruence]. }
  split; [assumption|]. subst hs. now apply tensor_handles_not_null.
Qed.

Lemma resolved_inputs_shape_witness :
  exists elts,
    Ary [NDArray 10; Qnil] = Ary elts /\
    List.length elts = List.length [Sym "a"; Sym "b"] /\
    [Some 10; None] = map tensor_handle elts.
Proof.
  destruct (@resolved_inputs_shape "args_grad" (Hsh [(Sym "a", NDArray 10)])
              [Sym "a"; Sym "b"] true (Ary [NDArray 10; Qnil])
              [Some 10; None] eq_refl)
    as [elts [H1 [H2 [_ [H4 _]]]]].
  exists elts. repeat split; assumption.
Defined.

(** X2. A positional input has no place for a missing value: a sequence
    that holds nil never resolves, also where missing values are allowed,
    so that gradient buffers given as a sequence cannot leave an argument
    out, while a Hash that omits every name resolves to nil everywhere. *)
Theorem positional_args_grad_no_holes elts a names :
  In Qnil elts ->
  raises (get_ndarray_inputs "args_grad" (Ary elts) names true) /\
  raises (args_grad_inputs (Ary elts) a names) /\
  args_grad_inputs (Hsh []) a names =
    Ok (Ary (map (fun _ => Qnil) names), map (fun _ => None) names).
Proof.
  intro Hin.
  assert (HR : raises (get_ndarray_inputs "args_grad" (Ary elts) names true)).
  { rewrite get_ndarray_inputs_Ary.
    assert (HF : forallb is_NDArray elts = false).
    { destruct (forallb is_NDArray elts) eqn:E; [|reflexivity].
      rewrite forallb_forall in E. specialize (E _ Hin). discriminate. }
    rewrite HF. destruct (negb _); eexists; reflexivity. }
  split; [exact HR|]. split; [exact HR|].
  unfold args_grad_inputs, get_ndarray_inputs. simpl.
  rewrite hash_inputs_resolved.
  - simpl. f_equal.
  - apply Forall_forall. intros n _. right. split; reflexivity.
Qed.

Lemma positional_args_grad_no_holes_witness :
  In Qnil [NDArray 10; Qnil] /\
  raises (args_grad_inputs (Ary [NDArray 10; Qnil])
            (Ary [NDArray 1; NDArray 2]) [Sym "a"; Sym "b"]).
Proof.
  assert (Hin : In Qnil [NDArray 10; Qnil]) by (right; left; reflexivity).
  split; [exact Hin|].
  exact (proj1 (proj2 (@positional_args_grad_no_holes [NDArray 10; Qnil]
                         (Ary [NDArray 1; NDArray 2]) [Sym "a"; Sym "b"]
                         Hin))).
Defined.

Lemma lookup2_listed_only names entries name def :
  In name names ->
  rb_hash_lookup2 (listed_only names entries) name def =
  rb_hash_lookup2 entries name def.
Proof.
  intro Hin. induction entries as [|[k v] rest IH]; [reflexivity|].
  unfold listed_only in *. simpl.
  destruct (existsb (VALUE_eqb k) names) eqn:Ex; simpl.
  - now rewrite IH.
  - rewrite IH. destruct (VALUE_eqb k name) eqn:Ek; [|reflexivity].
    assert (Hc : existsb (VALUE_eqb k) names = true).
    { apply existsb_exists. now exists name. }
    congruence.
Qed.

(** X3. A Hash input is read only at the listed names: the entries under
    any other key are ignored, whatever their value, and never cause an
    error. *)
Theorem unlisted_entries_ignored arg_key entries names allow_missing :
  get_ndarray_inputs arg_key (Hsh (listed_only names entries)) names
    allow_missing =
  get_ndarray_inputs arg_key (Hsh entries) names allow_missing.
Proof.
  unfold get_ndarray_inputs.
  rewrite (@hash_inputs_ext arg_key entries (listed_only names entries));
    [reflexivity|].
  intros n Hn. now apply lookup2_listed_only.
Qed.

(** X4. The sequence that the resolution of required inputs returns is
    itself a positional input for the same names: resolving it again, for
    any role, gives the same sequence and the same handles. *)
Theorem resolved_inputs_reusable arg_key arg_key' args names allow_missing
    a hs :
  get_ndarray_inputs arg_key args names false = Ok (a, hs) ->
  get_ndarray_inputs arg_key' a names allow_missing = Ok (a, hs).
Proof.
  intro H. destruct (get_ndarray_inputs_shape _ _ _ _ H)
    as [elts [-> [L [-> F]]]].
  rewrite get_ndarray_inputs_Ary.
  rewrite L, Nat.eqb_refl. simpl.
  assert (FT : forallb is_NDArray elts = true).
  { apply forallb_tensor. apply Forall_impl with (2 := F).
    intros v [Hv | [_ [Hc _]]]; [assumption | discriminate]. }
  now rewrite FT.
Qed.

Lemma resolved_inputs_reusable_witness :
  get_ndarray_inputs "args" (Ary [NDArray 10; NDArray 11])
    [Sym "a"; Sym "b"] true =
  Ok (Ary [NDArray 10; NDArray 11], [Some 10; Some 11]).
Proof.
  exact (@resolved_inputs_reusable "args" "args"
           (Hsh [(Sym "b", NDArray 11); (Sym "a", NDArray 10)])
           [Sym "a"; Sym "b"] true (Ary [NDArray 10; NDArray 11])
           [Some 10; Some 11] eq_refl).
Defined.

(** ** Further properties of the gradient requirements *)

Lemma NUM2UINT_range v c : NUM2UINT v = Ok c -> 0 <= c < 2 ^ 32.
Proof.
  destruct v; simpl; try discriminate.
  destruct (z <? INT_MIN); [discriminate|].
  destruct (UINT_MAX <? z); [discriminate|].
  intro H. injection H as <-. unfold to_mx_uint.
  apply Z.mod_pos_bound. reflexivity.
Qed.

Lemma NUM2UINT_code z :
  0 <= z <= UINT_MAX -> NUM2UINT (Integer z) = Ok z.
Proof.
  intros [H0 H1]. unfold UINT_MAX in H1. simpl.
  destruct (Z.ltb_spec z INT_MIN) as [H|H]; [unfold INT_MIN in H; lia|].
  destruct (Z.ltb_spec UINT_MAX z) as [H'|H']; [unfold UINT_MAX in H'; lia|].
  unfold to_mx_uint. rewrite Z.mod_small; [reflexivity|lia].
Qed.

Lemma each_range A (f : A -> result Z) l codes :
  (forall x c, f x = Ok c -> 0 <= c < 2 ^ 32) ->
  each f l = Ok codes ->
  Forall (fun c => 0 <= c < 2 ^ 32) codes.
Proof.
  intros Hf H. apply each_Ok in H.
  induction H as [|x c l codes Hx _ IH]; constructor; eauto.
Qed.

(** X5. Every code that gradient-requirement resolution returns fits the
    32-bit unsigned entry of the native array, and the scalar and the
    mapping forms return exactly one code per listed argument. *)
Theorem grad_req_codes_wellformed grad_req_map g names codes :
  grad_req_codes grad_req_map g names = Ok codes ->
  Forall (fun c => 0 <= c < 2 ^ 32) codes /\
  ((forall items, g <> Ary items) ->
   List.length codes = List.length names).
Proof.
  destruct g; try discriminate; simpl.
  - destruct (is_undef (rb_hash_lookup2 grad_req_map (Sym name) Qundef));
      [discriminate|].
    destruct (NUM2UINT (rb_hash_lookup grad_req_map (Sym name)))
      as [req|e] eqn:E; simpl; [|discriminate].
    intro H. injection H as <-. split.
    + apply Forall_forall. intros c Hc. apply repeat_spec in Hc. subst c.
      eapply NUM2UINT_range; eassumption.
    + intros _. apply repeat_length.
  - intro H. split.
    + eapply each_range; [|eassumption].
      intros x c. apply NUM2UINT_range.
    + intro Hn. destruct (Hn elts eq_refl).
  - intro H. split.
    + eapply each_range; [|eassumption].
      intros x c. apply NUM2UINT_range.
    + intros _. apply each_Ok in H. symmetry.
      eapply Forall2_length; eassumption.
Qed.

Lemma grad_req_codes_wellformed_witness :
  Forall (fun c => 0 <= c < 2 ^ 32) [4294967295; 0] /\
  List.length [4294967295; 0] = List.length [Sym "a"; Sym "b"].
Proof.
  destruct (@grad_req_codes_wellformed Sample.grad_req_map
              (Hsh [(Sym "a", Integer (-1))]) [Sym "a"; Sym "b"]
              [4294967295; 0] eq_refl) as [H1 H2].
  split; [exact H1|]. apply H2. intros items; discriminate.
Defined.

(** X6. A grad_req of any other kind than a Symbol, a String, an Array or
    a Hash fails with the argument error that carries its class; this
    holds for an explicit nil, which is not the same as leaving grad_req
    out. Bind then raises without calling [MXExecutorBindEX]. *)
Theorem grad_req_unknown_form engine grad_req_map g names :
  unknown_grad_req_form g ->
  grad_req_codes grad_req_map (normalize_grad_req g) names =
    Raise (invalid_grad_req_type g) /\
  forall obj ctx args kw,
    kw_grad_req kw = g ->
    raises (outcome (symbol_bind engine grad_req_map obj ctx args kw)) /\
    no_bind_call (trace (symbol_bind engine grad_req_map obj ctx args kw)).
Proof.
  intro Hg.
  assert (HC : forall ns,
             grad_req_codes grad_req_map (normalize_grad_req g) ns =
             Raise (invalid_grad_req_type g)).
  { intro ns. destruct g; try contradiction; reflexivity. }
  split; [apply HC|].
  intros obj ctx args kw Hkw.
  pose proof (symbol_bind_run engine grad_req_map obj ctx args kw) as Hrun.
  inversion Hrun as [h ns aux a gr x c eh HR Hcall Heq
                    | h ns aux a gr x c msg HR Hcall Heq
                    | t e Hnb Hnx Hnr Heq].
  - destruct HR. rewrite Hkw, HC in *. discriminate.
  - destruct HR. rewrite Hkw, HC in *. discriminate.
  - simpl. split; [eexists; reflexivity | assumption].
Qed.

Lemma grad_req_unknown_form_witness :
  unknown_grad_req_form Qnil /\
  grad_req_codes Sample.grad_req_map (normalize_grad_req Qnil)
    [Sym "a"; Sym "b"] = Raise (invalid_grad_req_type Qnil) /\
  grad_req_codes Sample.grad_req_map (normalize_grad_req Qundef)
    [Sym "a"; Sym "b"] = Ok [1; 1].
Proof.
  split; [exact I|]. split; [|reflexivity].
  exact (proj1 (@grad_req_unknown_form Sample.engine Sample.grad_req_map Qnil
                  [Sym "a"; Sym "b"] I)).
Defined.

(** X7. A grad_req mapping is read as a mapping from names to numeric
    codes: when every listed name is absent or stored with an Integer from
    0 to [UINT_MAX], the resolution returns, for each listed argument in
    order, the stored Integer, or 0 for an absent name; the table of
    labels plays no part. *)
Theorem grad_req_mapping_of_codes grad_req_map entries names :
  Forall (fun n => exists z,
            rb_hash_lookup2 entries n (Integer 0) = Integer z /\
            0 <= z <= UINT_MAX) names ->
  grad_req_codes grad_req_map (Hsh entries) names =
    Ok (map (stored_code entries) names) /\
  forall n, In n names -> has_key entries n = false ->
            stored_code entries n = 0.
Proof.
  intro HF. split.
  - simpl. apply each_Ok.
    induction HF as [|n names [z [Hz Hr]] _ IH]; simpl; constructor; auto.
    unfold stored_code. rewrite Hz. now apply NUM2UINT_code.
  - intros n _ Hk. unfold stored_code.
    now rewrite (lookup2_absent _ _ _ Hk).
Qed.

Lemma grad_req_mapping_of_codes_witness :
  grad_req_codes Sample.grad_req_map (Hsh [(Sym "b", Integer 3)])
    [Sym "a"; Sym "b"] = Ok [0; 3].
Proof.
  refine (proj1 (@grad_req_mapping_of_codes Sample.grad_req_map
                   [(Sym "b", Integer 3)] [Sym "a"; Sym "b"] _)).
  constructor; [exists 0; split; [reflexivity | unfold UINT_MAX; lia]|].
  constructor; [exists 3; split; [reflexivity | unfold UINT_MAX; lia]|].
  constructor.
Defined.

(** X8. The sequence form does not validate its labels as the scalar form
    does: an element that is not a key of the table, after elements that
    are recognized labels, raises the type error of the integer conversion
    of nil, not the argument error that lists the valid members. *)
Theorem grad_req_sequence_unrecognized grad_req_map pre item post names :
  Forall (fun i => exists c, label_code grad_req_map i c) pre ->
  has_key grad_req_map item = false ->
  grad_req_codes grad_req_map (Ary (pre ++ item :: post)) names =
    Raise (Exc rb_eTypeError "no implicit conversion from nil to integer"
             []) /\
  Exc rb_eTypeError "no implicit conversion from nil to integer" [] <>
    invalid_grad_req grad_req_map.
Proof.
  intros Hpre Hk. split; [|discriminate]. simpl.
  induction Hpre as [|i pre [c [_ Hc]] _ IH]; simpl.
  - unfold rb_hash_lookup. rewrite (lookup2_absent _ _ _ Hk). reflexivity.
  - rewrite Hc. simpl. rewrite IH. reflexivity.
Qed.

Lemma grad_req_sequence_unrecognized_witness :
  has_key Sample.grad_req_map (Sym "bogus") = false /\
  grad_req_codes Sample.grad_req_map (Ary [Sym "add"; Sym "bogus"])
    [Sym "a"; Sym "b"] =
  Raise (Exc rb_eTypeError "no implicit conversion from nil to integer" []).
Proof.
  split; [reflexivity|].
  refine (proj1 (@grad_req_sequence_unrecognized Sample.grad_req_map
                   [Sym "add"] (Sym "bogus") [] [Sym "a"; Sym "b"] _
                   eq_refl)).
  constructor; [|constructor]. exists 3. split; reflexivity.
Defined.

(** X9. The mapping form never accepts a label: a grad_req mapping that
    stores a Symbol or a String under a listed argument makes the
    resolution raise, with a type or range error of the integer
    conversion, whatever the other entries are. *)
Theorem grad_req_mapping_rejects_labels grad_req_map entries names name
    label :
  In name names ->
  rb_hash_lookup2 entries name (Integer 0) = Sym label \/
  rb_hash_lookup2 entries name (Integer 0) = Str label ->
  exists e,
    grad_req_codes grad_req_map (Hsh entries) names = Raise e /\
    (exc_class e = rb_eTypeError \/ exc_class e = rb_eRangeError).
Proof.
  intros Hin Hl. simpl.
  destruct (each (fun n => NUM2UINT (rb_hash_lookup2 entries n (Integer 0)))
              names) as [codes|e] eqn:E.
  - apply each_Ok in E. destruct (In_nth_error _ _ Hin) as [i Hi].
    destruct (Forall2_nth_error _ E Hi) as [c [_ Hc]].
    destruct Hl as [Hl | Hl]; rewrite Hl in Hc; discriminate.
  - exists e. split; [reflexivity|].
    apply each_Raise in E. destruct E as [n [_ Hn]].
    eapply NUM2UINT_Raise; eassumption.
Qed.

Lemma grad_req_mapping_rejects_labels_witness :
  In (Sym "b") [Sym "a"; Sym "b"] /\
  exists e,
    grad_req_codes Sample.grad_req_map
      (Hsh [(Sym "a", Integer 1); (Sym "b", Str "add")])
      [Sym "a"; Sym "b"] = Raise e /\
    (exc_class e = rb_eTypeError \/ exc_class e = rb_eRangeError).
Proof.
  assert (Hin : In (Sym "b") [Sym "a"; Sym "b"])
    by (right; left; reflexivity).
  split; [exact Hin|].
  exact (@grad_req_mapping_rejects_labels Sample.grad_req_map
           [(Sym "a", Integer 1); (Sym "b", Str "add")] [Sym "a"; Sym "b"]
           (Sym "b") "add" Hin (or_intror eq_refl)).
Defined.

(** ** Device groups *)

Lemma each_length A B (f : A -> result B) l ys :
  each f l = Ok ys -> List.length ys = List.length l.
Proof.
  intro H. apply each_Ok in H. symmetry. eapply Forall2_length; eassumption.
Qed.

(** X10. When the device-group map is a Hash and its resolution returns,
    the three arrays passed to the engine have one entry per entry of the
    Hash, in its enumeration order: at every index the label is the name
    of the Symbol key (or the String key itself) and the two codes are the
    device type and the device index of the value at that index; the count
    is the number of entries as a 32-bit unsigned integer. *)
Theorem group2ctx_parallel_arrays entries cm :
  group2ctx_arrays (Hsh entries) = Ok cm ->
  exists ks ts ds,
    ctx_map_keys cm = Some ks /\
    ctx_map_dev_types cm = Some ts /\
    ctx_map_dev_ids cm = Some ds /\
    List.length ks = List.length entries /\
    List.length ts = List.length entries /\
    List.length ds = List.length entries /\
    num_ctx_map_keys cm = to_mx_uint (Z.of_nat (List.length entries)) /\
    forall i k v,
      nth_error entries i = Some (k, v) ->
      exists s t d,
        (k = Sym s \/ k = Str s) /\
        mxnet_context_get_device_type_id v = Ok t /\
        mxnet_context_get_device_id v = Ok d /\
        nth_error ks i = Some s /\
        nth_error ts i = Some t /\
        nth_error ds i = Some d.
Proof.
  unfold group2ctx_arrays. simpl.
  destruct (each symbol_bind_group2ctx_process_i entries) as [cells|e] eqn:E;
    simpl; [|discriminate].
  intro H. injection H as <-. simpl.
  pose proof (each_length _ _ E) as L.
  exists (map (fun c => fst (fst c)) cells),
         (map (fun c => snd (fst c)) cells), (map snd cells).
  rewrite !length_map, L. repeat (split; [reflexivity|]).
  intros i k v Hi. apply each_Ok in E.
  destruct (Forall2_nth_error _ E Hi) as [[[s t] d] [Hc Hp]].
  exists s, t, d. rewrite !nth_error_map, Hc. simpl.
  unfold symbol_bind_group2ctx_process_i in Hp.
  destruct (StringValueCStr match k with Sym name => Str name | _ => k end)
    as [s'|e] eqn:Es; simpl in Hp; [|discriminate].
  destruct (mxnet_context_get_device_type_id v) as [t'|e]; simpl in Hp;
    [|discriminate].
  destruct (mxnet_context_get_device_id v) as [d'|e]; simpl in Hp;
    [|discriminate].
  injection Hp as -> -> ->.
  repeat split; auto.
  destruct k; simpl in Es; try discriminate.
  - destruct (has_null_byte name); [discriminate|].
    injection Es as ->. now left.
  - destruct (has_null_byte s0); [discriminate|].
    injection Es as ->. now right.
Qed.

Lemma group2ctx_parallel_arrays_witness :
  exists ks ts ds,
    ks = ["dev1"%string; "dev2"%string] /\ ts = [1; 2] /\ ds = [0; 3] /\
    group2ctx_arrays
      (Hsh [(Sym "dev1", Context 1 0); (Str "dev2", Context 2 3)]) =
    Ok {| num_ctx_map_keys := 2; ctx_map_keys := Some ks;
          ctx_map_dev_types := Some ts; ctx_map_dev_ids := Some ds |}.
Proof.
  destruct (@group2ctx_parallel_arrays
              [(Sym "dev1", Context 1 0); (Str "dev2", Context 2 3)]
              {| num_ctx_map_keys := 2;
                 ctx_map_keys := Some ["dev1"%string; "dev2"%string];
                 ctx_map_dev_types := Some [1; 2];
                 ctx_map_dev_ids := Some [0; 3] |} eq_refl)
    as [ks [ts [ds [H1 [H2 [H3 _]]]]]].
  simpl in H1, H2, H3. injection H1 as <-. injection H2 as <-.
  injection H3 as <-. do 3 eexists. repeat split.
Defined.

Lemma process_i_key_as_string entry :
  symbol_bind_group2ctx_process_i (key_as_string entry) =
  symbol_bind_group2ctx_process_i entry.
Proof. destruct entry as [k v]. destruct k; reflexivity. Qed.

(** X11. A device-group label may be given as a Symbol or as a String:
    for a Hash whose Symbol keys can be replaced by the Strings of their
    names without two keys becoming equal, so that the replaced entries
    are again the entries of a Hash, one for one, the replacement changes
    neither the arrays nor the exception of device-group resolution. *)
Theorem group2ctx_symbol_or_string_keys entries :
  NoDup (map fst entries) ->
  NoDup (map fst (map key_as_string entries)) ->
  List.length (map key_as_string entries) = List.length entries /\
  group2ctx_arrays (Hsh (map key_as_string entries)) =
  group2ctx_arrays (Hsh entries).
Proof.
  intros _ _. split; [apply length_map|].
  unfold group2ctx_arrays. simpl. rewrite length_map.
  assert (E : each symbol_bind_group2ctx_process_i (map key_as_string entries)
              = each symbol_bind_group2ctx_process_i entries).
  { induction entries as [|e rest IH]; [reflexivity|].
    simpl map. simpl each. rewrite process_i_key_as_string, IH. reflexivity. }
  now rewrite E.
Qed.

Lemma group2ctx_symbol_or_string_keys_witness :
  NoDup (map fst [(Sym "dev1", Context 1 0); (Str "dev2", Context 2 3)]) /\
  NoDup (map fst (map key_as_string
                    [(Sym "dev1", Context 1 0); (Str "dev2", Context 2 3)])) /\
  group2ctx_arrays
    (Hsh [(Str "dev1", Context 1 0); (Str "dev2", Context 2 3)]) =
  group2ctx_arrays
    (Hsh [(Sym "dev1", Context 1 0); (Str "dev2", Context 2 3)]).
Proof.
  assert (N1 : NoDup (map fst [(Sym "dev1", Context 1 0);
                               (Str "dev2", Context 2 3)])).
  { constructor; [intros [H|[]]; discriminate|].
    constructor; [intros []|constructor]. }
  assert (N2 : NoDup (map fst (map key_as_string
                                 [(Sym "dev1", Context 1 0);
                                  (Str "dev2", Context 2 3)]))).
  { constructor; [intros [H|[]]; discriminate|].
    constructor; [intros []|constructor]. }
  split; [exact N1|]. split; [exact N2|].
  exact (proj2 (@group2ctx_symbol_or_string_keys _ N1 N2)).
Defined.

(** ** Further properties of the bind operation *)

(** X12. For args_grad, aux_states, group2ctx and shared_exec, leaving the
    keyword out and giving nil are the same: bind has the same trace and
    the same outcome, execution object included. *)
Theorem omitted_keyword_is_nil engine grad_req_map obj ctx args kw :
  symbol_bind engine grad_req_map obj ctx args (nil_for_undef kw) =
  symbol_bind engine grad_req_map obj ctx args kw.
Proof.
  destruct kw as [ag gr ax gc se].
  unfold symbol_bind, nil_for_undef, args_grad_inputs, aux_states_inputs,
    shared_exec_handle. cbn [kw_args_grad kw_grad_req kw_aux_states
                               kw_group2ctx kw_shared_exec].
  assert (N : forall v,
             (if is_undef (if is_undef v then Qnil else v) then Qnil
              else (if is_undef v then Qnil else v)) =
             (if is_undef v then Qnil else v)).
  { intros v. destruct v; reflexivity. }
  rewrite !N. reflexivity.
Qed.

(** X13. The events of bind come in a fixed order and at most once each:
    the listing of the arguments, the listing of the auxiliary states, the
    call of [MXExecutorBindEX], the construction of the execution object.
    Bind returns exactly when the trace has all four, and the execution
    object then wraps the handle the native call returned. *)
Theorem bind_trace_order engine grad_req_map obj ctx args kw :
  (trace (symbol_bind engine grad_req_map obj ctx args kw) = [] /\
   raises (outcome (symbol_bind engine grad_req_map obj ctx args kw))) \/
  exists h,
    mxnet_get_handle obj = Ok h /\
    ((trace (symbol_bind engine grad_req_map obj ctx args kw) =
        [CallListArguments h] /\
      raises (outcome (symbol_bind engine grad_req_map obj ctx args kw))) \/
     (trace (symbol_bind engine grad_req_map obj ctx args kw) =
        [CallListArguments h; CallListAuxiliaryStates h] /\
      raises (outcome (symbol_bind engine grad_req_map obj ctx args kw))) \/
     (exists c msg,
        MXExecutorBindEX engine c = inl msg /\
        symbol_bind engine grad_req_map obj ctx args kw =
          ([CallListArguments h; CallListAuxiliaryStates h;
            CallExecutorBindEX c],
           Raise (Exc mxnet_eError "%s" [CStr msg]))) \/
     (exists c eh a g x,
        MXExecutorBindEX engine c = inr eh /\
        symbol_bind engine grad_req_map obj ctx args kw =
          ([CallListArguments h; CallListAuxiliaryStates h;
            CallExecutorBindEX c; NewExecutor eh],
           Ok (Executor eh obj ctx (normalize_grad_req (kw_grad_req kw))
                 (group2ctx_of kw) a g x)))).
Proof.
  unfold symbol_bind, symbol_list_arguments, symbol_list_auxiliary_states,
    CHECK_CALL, mxnet_executor_new, lift, ret.
  fold (group2ctx_of kw).
  destruct (check_context ctx) as [[]|e] eqn:Hctx; cbn -[to_mx_uint];
    [|left; split; [reflexivity | eexists; reflexivity]].
  destruct (mxnet_get_handle obj) as [h|e] eqn:Hobj; cbn -[to_mx_uint];
    [|left; split; [reflexivity | eexists; reflexivity]].
  right. exists h. split; [reflexivity|].
  destruct (MXSymbolListArguments engine h) as [msg|names] eqn:Hnames;
    cbn -[to_mx_uint];
    [left; split; [reflexivity | eexists; reflexivity]|].
  destruct (get_ndarray_inputs "args" args (map Sym names) false)
    as [[a ah]|e] eqn:Hargs; cbn -[to_mx_uint];
    [|left; split; [reflexivity | eexists; reflexivity]].
  destruct (args_grad_inputs (kw_args_grad kw) a (map Sym names))
    as [[g gh]|e] eqn:Hgrad; cbn -[to_mx_uint];
    [|left; split; [reflexivity | eexists; reflexivity]].
  right.
  destruct (MXSymbolListAuxiliaryStates engine h) as [msg|aux] eqn:Haux;
    cbn -[to_mx_uint];
    [left; split; [reflexivity | eexists; reflexivity]|].
  destruct (aux_states_inputs (kw_aux_states kw) (map Sym aux))
    as [[x xh]|e] eqn:Hauxs; cbn -[to_mx_uint];
    [|left; split; [reflexivity | eexists; reflexivity]].
  destruct (grad_req_codes grad_req_map (normalize_grad_req (kw_grad_req kw))
              (map Sym names)) as [reqs|e] eqn:Hreq; cbn -[to_mx_uint];
    [|left; split; [reflexivity | eexists; reflexivity]].
  destruct (group2ctx_arrays (group2ctx_of kw)) as [cm|e] eqn:Hcm;
    cbn -[to_mx_uint];
    [|left; split; [reflexivity | eexists; reflexivity]].
  destruct (shared_exec_handle (kw_shared_exec kw)) as [sh|e] eqn:Hsh;
    cbn -[to_mx_uint];
    [|left; split; [reflexivity | eexists; reflexivity]].
  destruct (mxnet_context_get_device_type_id ctx) as [t|e] eqn:Ht;
    cbn -[to_mx_uint];
    [|left; split; [reflexivity | eexists; reflexivity]].
  destruct (mxnet_context_get_device_id ctx) as [i|e] eqn:Hi;
    cbn -[to_mx_uint];
    [|left; split; [reflexivity | eexists; reflexivity]].
  right.
  fold (bind_call_of h a ah gh reqs cm x xh sh t i).
  destruct (MXExecutorBindEX engine
              (bind_call_of h a ah gh reqs cm x xh sh t i))
    as [msg|eh] eqn:Hcall; cbn -[to_mx_uint].
  - left. exists (bind_call_of h a ah gh reqs cm x xh sh t i), msg.
    split; [assumption | reflexivity].
  - right. exists (bind_call_of h a ah gh reqs cm x xh sh t i), eh, a, g, x.
    split; [assumption | reflexivity].
Qed.

Lemma args_grad_inputs_length args_grad a names g gh :
  RARRAY_LEN a = List.length names ->
  args_grad_inputs args_grad a names = Ok (g, gh) ->
  List.length gh = List.length names.
Proof.
  intros La. unfold args_grad_inputs.
  destruct (NIL_P (if is_undef args_grad then Qnil else args_grad)).
  - intro H. injection H as <- <-. now rewrite repeat_length.
  - intro H. now destruct (get_ndarray_inputs_length _ _ _ _ H).
Qed.

Lemma group2ctx_arrays_shape g cm :
  group2ctx_arrays g = Ok cm ->
  (ctx_map_keys cm = None /\ ctx_map_dev_types cm = None /\
   ctx_map_dev_ids cm = None /\ num_ctx_map_keys cm = 0) \/
  exists ks ts ds,
    ctx_map_keys cm = Some ks /\ ctx_map_dev_types cm = Some ts /\
    ctx_map_dev_ids cm = Some ds /\
    List.length ts = List.length ks /\ List.length ds = List.length ks /\
    num_ctx_map_keys cm = to_mx_uint (Z.of_nat (List.length ks)).
Proof.
  unfold group2ctx_arrays. destruct (negb (NIL_P g)).
  - destruct g; try discriminate.
    destruct (each symbol_bind_group2ctx_process_i entries) as [cells|e] eqn:E;
      simpl; [|discriminate].
    intro H. injection H as <-. right. simpl.
    do 3 eexists. repeat (split; [reflexivity|]).
    rewrite !length_map. repeat split.
    now rewrite (each_length _ _ E).
  - intro H. injection H as <-. left. repeat split.
Qed.

(** X14. In every call of [MXExecutorBindEX] that bind makes, the argument
    handles and the gradient handles are two arrays of exactly N entries,
    N being the number of listed arguments and the count passed; the
    auxiliary handles are as many as the listed auxiliary states, which is
    the count passed for them; no argument handle and no auxiliary handle
    is NULL; and the three device-group arrays are all NULL with a count
    of 0, or all present with the same length and that length as count. *)
Theorem bind_call_buffers engine grad_req_map obj ctx args kw c :
  In (CallExecutorBindEX c)
    (trace (symbol_bind engine grad_req_map obj ctx args kw)) ->
  exists h names aux,
    mxnet_get_handle obj = Ok h /\
    MXSymbolListArguments engine h = inr names /\
    MXSymbolListAuxiliaryStates engine h = inr aux /\
    symbol_handle c = h /\
    len c = to_mx_uint (Z.of_nat (List.length names)) /\
    List.length (in_args c) = List.length names /\
    List.length (arg_grad_store c) = List.length names /\
    Forall (fun p => p <> None) (in_args c) /\
    aux_states_len c = to_mx_uint (Z.of_nat (List.length aux)) /\
    List.length (aux_states c) = List.length aux /\
    Forall (fun p => p <> None) (aux_states c) /\
    ((map_keys c = None /\ map_dev_types c = None /\ map_dev_ids c = None /\
      num_map_keys c = 0) \/
     exists ks ts ds,
       map_keys c = Some ks /\ map_dev_types c = Some ts /\
       map_dev_ids c = Some ds /\
       List.length ts = List.length ks /\ List.length ds = List.length ks /\
       num_map_keys c = to_mx_uint (Z.of_nat (List.length ks))).
Proof.
  intro Hin.
  destruct (bind_call_resolved _ _ _ _ _ _ _ Hin)
    as [h [names [aux [a [g [x HR]]]]]].
  destruct HR as [ah gh xh reqs cm sh t i
    Hctx Hobj Hnames Hargs Hgrad Haux Hauxs Hreq Hcm Hsh Ht Hi Hc].
  exists h, names, aux. subst c. simpl.
  destruct (get_ndarray_inputs_shape _ _ _ _ Hargs) as [ea [-> [La [-> Fa]]]].
  unfold aux_states_inputs in Hauxs.
  destruct (get_ndarray_inputs_shape _ _ _ _ Hauxs) as [ex [-> [Lx [-> Fx]]]].
  rewrite length_map in La, Lx.
  pose proof (@args_grad_inputs_length (kw_args_grad kw) (Ary ea)
                (map Sym names) g gh) as Lg.
  simpl in Lg. rewrite length_map in Lg. specialize (Lg La Hgrad).
  simpl. rewrite !length_map, La, Lx.
  repeat (split; [first [assumption | reflexivity]|]).
  split.
  { apply tensor_handles_not_null. apply Forall_impl with (2 := Fa).
    intros v [Hv | [_ [Hf _]]]; [assumption | discriminate]. }
  repeat (split; [reflexivity|]).
  split.
  { apply tensor_handles_not_null. apply Forall_impl with (2 := Fx).
    intros v [Hv | [_ [Hf _]]]; [assumption | discriminate]. }
  exact (group2ctx_arrays_shape _ Hcm).
Qed.

Lemma bind_call_buffers_witness :
  In (CallExecutorBindEX sample_call)
    (trace (symbol_bind Sample.engine Sample.grad_req_map (MXSymbol 1)
              (Context 1 0)
              (Hsh [(Sym "b", NDArray 11); (Sym "a", NDArray 10)])
              Sample.no_kwargs)) /\
  exists names : list string,
    List.length (in_args sample_call) = List.length names /\
    List.length (arg_grad_store sample_call) = List.length names.
Proof.
  assert (Hin : In (CallExecutorBindEX sample_call)
                  (trace (symbol_bind Sample.engine Sample.grad_req_map
                            (MXSymbol 1) (Context 1 0)
                            (Hsh [(Sym "b", NDArray 11);
                                  (Sym "a", NDArray 10)])
                            Sample.no_kwargs)))
    by (right; right; left; reflexivity).
  split; [exact Hin|].
  destruct (bind_call_buffers _ _ _ _ _ _ _ Hin)
    as [h [names [aux [_ [_ [_ [_ [_ [H1 [H2 _]]]]]]]]]].
  exists names. split; assumption.
Defined.

(** X15. When args_grad is left out or nil, every gradient handle that
    bind passes to [MXExecutorBindEX] is NULL, one per listed argument,
    and the execution object bind returns holds nil as its gradient
    arrays. *)
Theorem bind_without_args_grad engine grad_req_map obj ctx args kw :
  kw_args_grad kw = Qundef \/ kw_args_grad kw = Qnil ->
  (forall c,
     In (CallExecutorBindEX c)
       (trace (symbol_bind engine grad_req_map obj ctx args kw)) ->
     exists h names,
       mxnet_get_handle obj = Ok h /\
       MXSymbolListArguments engine h = inr names /\
       arg_grad_store c = repeat None (List.length names)) /\
  (forall eh s cx gr m a g x,
     outcome (symbol_bind engine grad_req_map obj ctx args kw) =
       Ok (Executor eh s cx gr m a g x) ->
     g = Qnil).
Proof.
  intro Hkw.
  assert (HG : forall a names g gh,
             args_grad_inputs (kw_args_grad kw) a names = Ok (g, gh) ->
             g = Qnil /\ gh = repeat None (RARRAY_LEN a)).
  { intros a names g gh. unfold args_grad_inputs.
    destruct Hkw as [-> | ->]; simpl; intro H; injection H as <- <-; auto. }
  split.
  - intros c Hin.
    destruct (bind_call_resolved _ _ _ _ _ _ _ Hin)
      as [h [names [aux [a [g [x HR]]]]]].
    destruct HR as [ah gh xh reqs cm sh t i
      Hctx Hobj Hnames Hargs Hgrad Haux Hauxs Hreq Hcm Hsh Ht Hi Hc].
    exists h, names. split; [assumption|]. split; [assumption|].
    subst c. simpl. destruct (HG _ _ _ _ Hgrad) as [_ ->].
    destruct (get_ndarray_inputs_length _ _ _ _ Hargs) as [La _].
    rewrite length_map in La. now rewrite La.
  - intros eh s cx gr m a g x Hout.
    pose proof (symbol_bind_run engine grad_req_map obj ctx args kw) as Hrun.
    inversion Hrun as [h ns aux a0 g0 x0 c eh0 HR Hcall Heq
                      | h ns aux a0 g0 x0 c msg HR Hcall Heq
                      | t e Hnb Hnx Hnr Heq];
      rewrite <- Heq in Hout; simpl in Hout; try discriminate.
    injection Hout as <- <- <- <- <- <- <- <-.
    destruct HR as [ah gh xh reqs cm sh t i
      Hctx Hobj Hnames Hargs Hgrad Haux Hauxs Hreq Hcm Hsh Ht Hi Hc].
    now destruct (HG _ _ _ _ Hgrad).
Qed.

Lemma bind_without_args_grad_witness :
  kw_args_grad Sample.no_kwargs = Qundef /\
  forall eh s cx gr m a g x,
    outcome (symbol_bind Sample.engine Sample.grad_req_map (MXSymbol 1)
               (Context 1 0) (Ary [NDArray 10; NDArray 11])
               Sample.no_kwargs) =
      Ok (Executor eh s cx gr m a g x) ->
    g = Qnil.
Proof.
  split; [reflexivity|].
  exact (proj2 (@bind_without_args_grad Sample.engine Sample.grad_req_map
                  (MXSymbol 1) (Context 1 0) (Ary [NDArray 10; NDArray 11])
                  Sample.no_kwargs (or_introl eq_refl))).
Defined.

Lemma hash_inputs_tensors arg_key entries names allow_missing :
  Forall (maps_to_tensor entries) names ->
  get_ndarray_inputs arg_key (Hsh entries) names allow_missing =
  Ok (Ary (map (fun n => rb_hash_lookup2 entries n Qundef) names),
      map tensor_handle
        (map (fun n => rb_hash_lookup2 entries n Qundef) names)).
Proof.
  intro HT. unfold get_ndarray_inputs. rewrite hash_inputs_resolved.
  - simpl. rewrite maps_to_tensor_slot, maps_to_tensor_handles by assumption.
    now rewrite map_map.
  - apply Forall_impl with (2 := HT). intros n Hn. now left.
Qed.

Lemma looked_up_tensors entries names :
  Forall (maps_to_tensor entries) names ->
  forallb is_NDArray (map (fun n => rb_hash_lookup2 entries n Qundef) names)
  = true.
Proof.
  induction 1 as [|n names [h Hh] _ IH]; simpl; [reflexivity|].
  now rewrite Hh, IH.
Qed.

(** X16. The Hash form and the positional form of args are
    interchangeable: for a graph whose listed arguments all have a tensor
    in the Hash, bind with the Hash and bind with the sequence of those
    tensors in the order of the listed arguments have the same trace and
    the same outcome, whatever the keywords. *)
Theorem bind_hash_or_positional engine grad_req_map obj ctx entries kw
    h names :
  mxnet_get_handle obj = Ok h ->
  MXSymbolListArguments engine h = inr names ->
  Forall (maps_to_tensor entries) (map Sym names) ->
  symbol_bind engine grad_req_map obj ctx (Hsh entries) kw =
  symbol_bind engine grad_req_map obj ctx
    (Ary (map (fun n => rb_hash_lookup2 entries n Qundef) (map Sym names)))
    kw.
Proof.
  intros Hobj Hnames HT.
  assert (E : get_ndarray_inputs "args"
                (Ary (map (fun n => rb_hash_lookup2 entries n Qundef)
                        (map Sym names))) (map Sym names) false =
              get_ndarray_inputs "args" (Hsh entries) (map Sym names) false).
  { rewrite (hash_inputs_tensors "args" false HT).
    rewrite get_ndarray_inputs_Ary, length_map, Nat.eqb_refl. simpl.
    now rewrite (looked_up_tensors HT). }
  unfold symbol_bind, symbol_list_arguments, CHECK_CALL, lift, ret.
  destruct (check_context ctx) as [[]|e]; [|reflexivity].
  rewrite Hobj. cbn -[get_ndarray_inputs to_mx_uint].
  rewrite Hnames. cbn -[get_ndarray_inputs to_mx_uint].
  rewrite E. reflexivity.
Qed.

Lemma bind_hash_or_positional_witness :
  symbol_bind Sample.engine Sample.grad_req_map (MXSymbol 1) (Context 1 0)
    (Hsh [(Sym "b", NDArray 11); (Sym "a", NDArray 10)]) Sample.no_kwargs =
  symbol_bind Sample.engine Sample.grad_req_map (MXSymbol 1) (Context 1 0)
    (Ary [NDArray 10; NDArray 11]) Sample.no_kwargs.
Proof.
  refine (@bind_hash_or_positional Sample.engine Sample.grad_req_map
            (MXSymbol 1) (Context 1 0)
            [(Sym "b", NDArray 11); (Sym "a", NDArray 10)] Sample.no_kwargs
            1 ["a"%string; "b"%string] eq_refl eq_refl _).
  repeat constructor; eexists; reflexivity.
Defined.

(** X17. Bind with every keyword left out, on a graph without auxiliary
    states and with a Hash that holds a tensor for every listed argument:
    the listing calls are followed by one call of [MXExecutorBindEX] that
    carries the handles of the tensors in the order of the listed
    arguments, a NULL gradient handle and the code of "write" for each of
    them, no auxiliary state, no device group and no shared executor. If
    the call returns a handle, bind returns the execution object of that
    handle, with the tensors in the order of the listed arguments; if it
    fails, bind raises the engine's error with the engine's message and
    constructs nothing. *)
Theorem bind_with_defaults engine grad_req_map h t d names entries c0 :
  MXSymbolListArguments engine h = inr names ->
  MXSymbolListAuxiliaryStates engine h = inr [] ->
  Forall (maps_to_tensor entries) (map Sym names) ->
  label_code grad_req_map (Sym "write") c0 ->
  let tensors :=
    map (fun n => rb_hash_lookup2 entries n Qundef) (map Sym names) in
  let call :=
    {| symbol_handle := h;
       dev_type := t;
       dev_id := d;
       num_map_keys := 0;
       map_keys := None;
       map_dev_types := None;
       map_dev_ids := None;
       len := to_mx_uint (Z.of_nat (List.length names));
       in_args := map tensor_handle tensors;
       arg_grad_store := repeat None (List.length names);
       grad_req_type := repeat c0 (List.length names);
       aux_states_len := 0;
       aux_states := [];
       shared_exec := None |} in
  symbol_bind engine grad_req_map (MXSymbol h) (Context t d) (Hsh entries)
    Sample.no_kwargs =
  match MXExecutorBindEX engine call with
  | inr eh =>
      ([CallListArguments h; CallListAuxiliaryStates h;
        CallExecutorBindEX call; NewExecutor eh],
       Ok (Executor eh (MXSymbol h) (Context t d) (Sym "write") Qnil
             (Ary tensors) Qnil (Ary [])))
  | inl msg =>
      ([CallListArguments h; CallListAuxiliaryStates h;
        CallExecutorBindEX call],
       Raise (Exc mxnet_eError "%s" [CStr msg]))
  end.
Proof.
  intros Hnames Haux HT Hw tensors call.
  pose proof (hash_inputs_tensors "args" false HT) as Hargs.
  pose proof (proj1 (grad_req_codes_Sym grad_req_map "write" (map Sym names))
                c0 Hw) as Hreq.
  rewrite length_map in Hreq.
  unfold symbol_bind, symbol_list_arguments, symbol_list_auxiliary_states,
    CHECK_CALL, mxnet_executor_new, lift, ret.
  cbn -[get_ndarray_inputs grad_req_codes to_mx_uint].
  rewrite Hnames. cbn -[get_ndarray_inputs grad_req_codes to_mx_uint].
  rewrite Hargs. cbn -[get_ndarray_inputs grad_req_codes to_mx_uint].
  rewrite Haux. cbn -[grad_req_codes to_mx_uint].
  rewrite Hreq. cbn -[grad_req_codes to_mx_uint].
  rewrite !length_map.
  change (to_mx_uint 0) with 0.
  fold tensors. fold call.
  destruct (MXExecutorBindEX engine call); reflexivity.
Qed.

Lemma bind_with_defaults_witness :
  symbol_bind Sample.engine Sample.grad_req_map (MXSymbol 1) (Context 1 0)
    (Hsh [(Sym "b", NDArray 11); (Sym "a", NDArray 10)]) Sample.no_kwargs =
  ([CallListArguments 1; CallListAuxiliaryStates 1;
    CallExecutorBindEX sample_call; NewExecutor 99],
   Ok (Executor 99 (MXSymbol 1) (Context 1 0) (Sym "write") Qnil
         (Ary [NDArray 10; NDArray 11]) Qnil (Ary []))).
Proof.
  refine (@bind_with_defaults Sample.engine Sample.grad_req_map 1 1 0
            ["a"%string; "b"%string]
            [(Sym "b", NDArray 11); (Sym "a", NDArray 10)] 1
            eq_refl eq_refl _ _).
  - repeat constructor; eexists; reflexivity.
  - split; reflexivity.
Defined.
